(** * AltDSS-Go: the marshalling core of [altdss/dsslib.go]

    A shallow embedding of the hand-written part of the binding layer:
    the error channel ([DSSError]), the copy-out helpers for the engine's
    global-result (GR) scratch buffers, the outbound string-array helpers
    and the context life cycle ([IDSS.Init], [IDSS.NewContext]).

    The wrapped engine (DSS C-API) is foreign code.  It is represented by
    the class [DSS_CAPI]: one method per C entry point the modelled Go
    code calls, acting on the native state it owns. *)

From Stdlib Require Import ZArith Lia.
From stdpp Require Import base numbers option list gmap strings pretty.

Local Open Scope Z_scope.

(** ** Native values *)

(** [unsafe.Pointer] to an engine instance; [nil] is 0. *)
Abbreviation handle := Z (only parsing).

(** A native address; the null pointer is 0. *)
Abbreviation addr := Z (only parsing).

(** A [float64] is carried as its IEEE-754 bit pattern: the binding only
    copies such values, it never computes with them. *)
Abbreviation float64 := Z (only parsing).

Record complex128 := Complex { real : float64; imag : float64 }.

(** Sizes of the native types on the supported target (linux_x64). *)
Definition ptr_size : Z := 8.
Definition int32_size : Z := 4.
Definition float64_size : Z := 8.
Definition complex128_size : Z := 16.

(** Conversion to [int32] (two's complement wrap-around). *)
Definition wrap32 (z : Z) : Z := (z + 2 ^ 31) mod 2 ^ 32 - 2 ^ 31.

(** ** Native memory owned by the engine

    Typed cells addressed by byte address.  A C string is kept whole at
    the address of its first byte.  Every address can be read; whether it
    is mapped is the engine's business, not the binding's. *)

Record Mem := {
  mem_i32 : gmap Z Z;
  mem_f64 : gmap Z Z;
  mem_u8  : gmap Z Z;
  mem_ptr : gmap Z Z;
  mem_str : gmap Z string;
}.

Definition load_i32 (m : Mem) (a : addr) : Z := wrap32 (default 0 (mem_i32 m !! a)).
Definition load_f64 (m : Mem) (a : addr) : float64 := default 0 (mem_f64 m !! a).
Definition load_u8 (m : Mem) (a : addr) : Z := default 0 (mem_u8 m !! a) mod 256.
Definition load_ptr (m : Mem) (a : addr) : addr := default 0 (mem_ptr m !! a).

(** A [complex128] occupies two adjacent [float64] cells: real part first. *)
Definition load_c128 (m : Mem) (a : addr) : complex128 :=
  Complex (load_f64 m a) (load_f64 m (a + float64_size)).

Definition store_i32 (m : Mem) (a : addr) (v : Z) : Mem :=
  {| mem_i32 := <[a := wrap32 v]> (mem_i32 m); mem_f64 := mem_f64 m;
     mem_u8 := mem_u8 m; mem_ptr := mem_ptr m; mem_str := mem_str m |}.

(** [C.GoString]: the empty string for a null pointer, otherwise a copy of
    the C string found there. *)
Definition GoString (m : Mem) (p : addr) : string :=
  if decide (p = 0) then "" else default "" (mem_str m !! p).

(** The engine's native state: its memory and whatever else it keeps. *)
Record Native (E : Type) := MkNative { mem : Mem; eng : E }.
Arguments MkNative {E} _ _.
Arguments mem {E} _.
Arguments eng {E} _.

Definition set_mem {E} (n : Native E) (m : Mem) : Native E := MkNative m (eng n).

(** ** Go values and control *)

(** A Go [error]: [None] is [nil], [Some msg] an error whose [Error()]
    text is [msg]. *)
Definition error := option string.

(** [errors.New] and [fmt.Errorf] with the two format strings of the file. *)
Definition errors_New (msg : string) : error := Some msg.

(** [fmt.Errorf("(DSSError#%d) %s", n, desc)] *)
Definition Errorf_DSSError (n : Z) (desc : string) : error :=
  Some ("(DSSError#" +:+ pretty n +:+ ") " +:+ desc).

(** Outcome of running Go code from a state: a value, or a run-time panic;
    either way with the state reached (deferred calls still run while a
    panic unwinds). *)
Inductive outcome (S A : Type) :=
  | Ok (a : A) (s : S)
  | Panic (msg : string) (s : S).
Arguments Ok {S A} _ _.
Arguments Panic {S A} _ _.

(** State-passing computations that may panic. *)
Definition M (S A : Type) : Type := S -> outcome S A.

Definition ret {S A} (a : A) : M S A := fun s => Ok a s.

Definition bind {S A B} (c : M S A) (k : A -> M S B) : M S B :=
  fun s => match c s with
           | Ok a s' => k a s'
           | Panic msg s' => Panic msg s'
           end.

Definition panic {S A} (msg : string) : M S A := fun s => Panic msg s.
Definition gets {S A} (f : S -> A) : M S A := fun s => Ok (f s) s.
Definition modify {S} (f : S -> S) : M S unit := fun s => Ok tt (f s).

(** A foreign call: it returns a value and a new state, and cannot panic. *)
Definition call {S A} (f : S -> A * S) : M S A := fun s => Ok (f s).1 (f s).2.

(** A foreign call that returns nothing. *)
Definition call_void {S} (f : S -> S) : M S unit := fun s => Ok tt (f s).

(** [defer d] registered before [body]: [d] runs when [body] returns and
    also when it panics; the panic then continues. *)
Definition with_defer {S A} (d : M S unit) (body : M S A) : M S A :=
  fun s => match body s with
           | Ok a s' => match d s' with
                        | Ok _ s'' => Ok a s''
                        | Panic msg s'' => Panic msg s''
                        end
           | Panic msg s' => match d s' with
                             | Ok _ s'' => Panic msg s''
                             | Panic msg' s'' => Panic msg' s''
                             end
           end.

(** Running a computation on one component of a larger state. *)
Definition zoom {S T A} (proj : T -> S) (upd : T -> S -> T) (c : M S A) : M T A :=
  fun t => match c (proj t) with
           | Ok a s => Ok a (upd t s)
           | Panic msg s => Panic msg (upd t s)
           end.

Declare Scope go_scope.
Delimit Scope go_scope with go.
Notation "x <- c ;; k" := (bind c (fun x => k))
  (at level 100, c at next level, right associativity) : go_scope.
Notation "c ;;; k" := (bind c (fun _ => k))
  (at level 100, right associativity) : go_scope.
Local Open Scope go_scope.

(** Dereferencing a Go pointer: a nil pointer panics. *)
Definition nil_msg : string := "invalid memory address or nil pointer dereference".

Definition nil_check {S} (p : addr) : M S unit :=
  if decide (p = 0) then panic nil_msg else ret tt.

(** [unsafe.Slice(ptr, len)]: panics when [len] is negative, or when [ptr]
    is nil and [len] is not zero. *)
Definition unsafe_Slice {S} (p : addr) (len : Z) : M S unit :=
  if decide (len < 0) then panic "unsafe.Slice: len out of range"
  else if decide (p = 0 /\ len <> 0) then panic "unsafe.Slice: ptr is nil and len is not zero"
  else ret tt.

(** [make([]T, n)]: panics when [n] is negative. *)
Definition make_check {S} (len : Z) : M S unit :=
  if decide (len < 0) then panic "makeslice: len out of range" else ret tt.

(** ** The context's pointer block *)

Record DSSContextPtrs := {
  ctxPtr : handle;
  errorNumberPtr : addr;
  CountPtr_PDouble : addr;
  CountPtr_PPChar : addr;
  CountPtr_PInteger : addr;
  CountPtr_PByte : addr;
  DataPtr_PDouble : addr;
  DataPtr_PInteger : addr;
  DataPtr_PByte : addr;
  DataPtr_PPChar : addr;
}.

(** The eight GR pointers [ctx_DSS_GetGRPointers] writes through its
    out-parameters, in the order of the C prototype. *)
Record GRPointers := {
  gr_DataPtr_PPChar : addr;
  gr_DataPtr_PDouble : addr;
  gr_DataPtr_PInteger : addr;
  gr_DataPtr_PByte : addr;
  gr_CountPtr_PPChar : addr;
  gr_CountPtr_PDouble : addr;
  gr_CountPtr_PInteger : addr;
  gr_CountPtr_PByte : addr;
}.

(** A Go array [[4]int32]; the binding only ever reads slot 0. *)
Record Count4 := { cnt0 : Z; cnt1 : Z; cnt2 : Z; cnt3 : Z }.

(** ** The C heap reached through cgo ([C.malloc], [C.CString], [C.free])

    Blocks are kept by base address.  A block knows its size in bytes, the
    pointer values stored in it (by slot index) and, for a block made by
    [C.CString], the string copied into it.  Every allocator call and every
    store is also appended to a trace, with the bytes it covers.

    Go performs no bounds check on a slice made by [unsafe.Slice]: a store
    past the end of a block is carried out, and it lands in whatever lies
    behind the block.  What the allocator does after that is not defined
    in C, and the model does not know it.  The model records every store
    in the trace with the bytes it covers, for [store_in_bounds] to judge;
    its run says what the program does up to the first store that leaves
    its block, and no further. *)

Record Block := {
  blk_size : Z;
  blk_slots : gmap Z Z;
  blk_str : string;
}.

Inductive Event :=
  | EvMalloc (p : addr) (size : Z)
  | EvStore (p : addr) (off len : Z)
  | EvFree (p : addr).

Record CHeap := {
  blocks : gmap Z Block;
  brk : positive;
  events : list Event;
}.

(** cgo's [C.malloc] never returns nil, and a request for 0 bytes still
    yields a pointer of its own. *)
Definition malloc_block (n : Z) (b : Block) : M CHeap addr :=
  fun h =>
    let p := Z.pos (brk h) in
    Ok p {| blocks := <[p := b]> (blocks h);
            brk := (brk h + Z.to_pos n)%positive;
            events := events h ++ [EvMalloc p n] |}.

Definition malloc (n : Z) : M CHeap addr :=
  malloc_block n {| blk_size := n; blk_slots := ∅; blk_str := "" |}.

(** [C.CString]: a fresh block of [len(s) + 1] bytes holding [s] and its
    terminator. *)
Definition CString (s : string) : M CHeap addr :=
  let n := Z.of_nat (String.length s) + 1 in
  malloc_block n {| blk_size := n; blk_slots := ∅; blk_str := s |}.

(** [C.free]: freeing the null pointer does nothing. *)
Definition free (p : addr) : M CHeap unit :=
  if decide (p = 0) then ret tt
  else modify (fun h => {| blocks := delete p (blocks h); brk := brk h;
                           events := events h ++ [EvFree p] |}).

(** [cdata[i] = v] for [cdata := unsafe.Slice(data, _)] of pointers.
    The slot map is what a later [cdata[i]] reads back; whether the store
    stayed within the block is for the trace to tell. *)
Definition store_slot (data : addr) (i : Z) (v : addr) : M CHeap unit :=
  modify (fun h =>
    {| blocks := alter (fun b => {| blk_size := blk_size b;
                                    blk_slots := <[i := v]> (blk_slots b);
                                    blk_str := blk_str b |}) data (blocks h);
       brk := brk h;
       events := events h ++ [EvStore data (ptr_size * i) ptr_size] |}).

(** [cdata[i]] read back. *)
Definition load_slot (h : CHeap) (data : addr) (i : Z) : addr :=
  default 0 (b ← blocks h !! data; blk_slots b !! i).

(** The bytes [C.CString] copied into the block at [p], the terminator
    left out. *)
Definition heap_string (h : CHeap) (p : addr) : string :=
  default "" (blk_str <$> blocks h !! p).

(** A C string ends at its first NUL byte. *)
Fixpoint until_nul (s : string) : string :=
  match s with
  | EmptyString => EmptyString
  | String c rest =>
      if Ascii.eqb c Ascii.zero then EmptyString else String c (until_nul rest)
  end.

(** What C code reads at a [const char*] argument. *)
Definition c_string_at (h : CHeap) (p : addr) : string :=
  until_nul (heap_string h p).

(** What C code reads at a [const char**] argument of [count] entries. *)
Definition heap_strings (h : CHeap) (data : addr) (count : Z) : list string :=
  (fun i => c_string_at h (load_slot h data i)) <$> seqZ 0 count.

(** Bytes requested for the block at [p], according to the trace. *)
Fixpoint allocated_size (evs : list Event) (p : addr) : option Z :=
  match evs with
  | [] => None
  | EvMalloc q n :: rest => if decide (q = p) then Some n else allocated_size rest p
  | _ :: rest => allocated_size rest p
  end.

(** A store stays within the block it addresses. *)
Definition store_in_bounds (evs : list Event) (ev : Event) : bool :=
  match ev with
  | EvStore p off len =>
      match allocated_size evs p with
      | Some n => bool_decide (0 <= off /\ off + len <= n)
      | None => false
      end
  | _ => true
  end.

Definition all_stores_in_bounds (evs : list Event) : bool :=
  forallb (store_in_bounds evs) evs.

(** ** The engine's C interface ([dss_capi_ctx.h])

    One method per entry point called by the modelled code.  An entry
    point may change the native state at will.  The one exception is
    [ctx_Error_Get_Description], taken to be a plain read: [DSSError]
    passes its result to [fmt.Errorf] next to [*ctx.errorNumberPtr], and
    Go fixes no order between that read and the call.  That the call
    changes nothing is an assumption about the engine; the Go source shows
    the call and no more.  An argument declared [const char**] gives the
    engine read access to the C heap and nothing more. *)

Class DSS_CAPI (E : Type) := {
  ctx_Get_Prime : Native E -> handle * Native E;
  ctx_New : Native E -> handle * Native E;
  ctx_Dispose : handle -> Native E -> Native E;
  ctx_DSS_Start : handle -> Z -> Native E -> Z * Native E;
  ctx_Error_Get_NumberPtr : handle -> Native E -> addr * Native E;
  ctx_Error_Get_Description : handle -> Native E -> addr;
  ctx_DSS_GetGRPointers : handle -> Native E -> GRPointers * Native E;
  DSS_Dispose_PPAnsiChar : addr -> Z -> Native E -> Native E;
  ctx_Storages_Get_RegisterValues_GR : handle -> Native E -> Native E;
  ctx_Fuses_Get_State : handle -> Native E -> (addr * Count4) * Native E;
  ctx_Fuses_Set_State : handle -> addr -> Z -> CHeap -> Native E -> Native E;
  ctx_Fuses_Set_NormalState : handle -> addr -> Z -> CHeap -> Native E -> Native E;
  ctx_CktElement_Set_BusNames : handle -> addr -> Z -> CHeap -> Native E -> Native E;
  ctx_Text_CommandArray : handle -> addr -> Z -> CHeap -> Native E -> Native E;
  ctx_Storages_Get_idx : handle -> Native E -> Z * Native E;
}.

(** ** Proxies and the Go heap *)

(** A Go pointer to a heap object: 0 is nil, [S i] the [i]-th object. *)
Definition goptr := nat.

(** [ICommonData]; its fields [ctxPtr] and [ctx] are [cd_ctxPtr] and
    [cd_ctx] here, [ctxPtr] being a field of [DSSContextPtrs] already. *)
Record ICommonData := { cd_ctxPtr : handle; cd_ctx : goptr }.

(** Every interface struct embeds [ICommonData] and may hold further
    interface structs by value, under their field names. *)
#[warnings="-register-all"] Inductive Proxy :=
  | MkProxy (common : ICommonData) (fields : list (string * Proxy)).

Definition common (p : Proxy) : ICommonData := match p with MkProxy c _ => c end.
Definition fields (p : Proxy) : list (string * Proxy) := match p with MkProxy _ fs => fs end.

Definition ICommonData_zero : ICommonData := {| cd_ctxPtr := 0; cd_ctx := 0%nat |}.

(** Zero values of the interface structs. *)
Definition leaf_zero : Proxy := MkProxy ICommonData_zero [].
Definition ICktElement_zero : Proxy := MkProxy ICommonData_zero [("Properties", leaf_zero)].
Definition IDSSElement_zero : Proxy := MkProxy ICommonData_zero [("Properties", leaf_zero)].

Definition ICircuit_zero : Proxy :=
  MkProxy ICommonData_zero
    [ ("Buses", leaf_zero); ("CktElements", ICktElement_zero);
      ("ActiveElement", ICktElement_zero); ("Solution", leaf_zero);
      ("ActiveBus", leaf_zero); ("Generators", leaf_zero); ("Meters", leaf_zero);
      ("Monitors", leaf_zero); ("Settings", leaf_zero); ("Lines", leaf_zero);
      ("CtrlQueue", leaf_zero); ("Loads", leaf_zero);
      ("ActiveCktElement", ICktElement_zero); ("ActiveDSSElement", IDSSElement_zero);
      ("ActiveClass", leaf_zero); ("CapControls", leaf_zero);
      ("RegControls", leaf_zero); ("SwtControls", leaf_zero);
      ("Transformers", leaf_zero); ("Capacitors", leaf_zero); ("Topology", leaf_zero);
      ("Sensors", leaf_zero); ("XYCurves", leaf_zero); ("PDElements", leaf_zero);
      ("Reclosers", leaf_zero); ("Relays", leaf_zero); ("LoadShapes", leaf_zero);
      ("Fuses", leaf_zero); ("PVSystems", leaf_zero); ("Vsources", leaf_zero);
      ("LineCodes", leaf_zero); ("LineGeometries", leaf_zero);
      ("LineSpacings", leaf_zero); ("WireData", leaf_zero); ("CNData", leaf_zero);
      ("TSData", leaf_zero); ("Reactors", leaf_zero); ("ReduceCkt", leaf_zero);
      ("Storages", leaf_zero); ("GICSources", leaf_zero); ("Parallel", leaf_zero) ].

Definition IDSS_zero : Proxy :=
  MkProxy ICommonData_zero
    [ ("ActiveCircuit", ICircuit_zero); ("Circuits", ICircuit_zero);
      ("Error", leaf_zero); ("Text", leaf_zero); ("DSSProgress", leaf_zero);
      ("ActiveClass", leaf_zero); ("Executive", leaf_zero); ("Parser", leaf_zero);
      ("YMatrix", leaf_zero); ("ZIP", leaf_zero) ].

Definition DSSContextPtrs_zero : DSSContextPtrs :=
  {| ctxPtr := 0; errorNumberPtr := 0;
     CountPtr_PDouble := 0; CountPtr_PPChar := 0; CountPtr_PInteger := 0;
     CountPtr_PByte := 0; DataPtr_PDouble := 0; DataPtr_PInteger := 0;
     DataPtr_PByte := 0; DataPtr_PPChar := 0 |}.

(** All [ICommonData] blocks of a proxy, its own first. *)
Fixpoint commons (p : Proxy) : list ICommonData :=
  match p with
  | MkProxy c fs => c :: flat_map (fun f => commons f.2) fs
  end.

(** Everything the modelled code can touch. *)
Record World (E : Type) := MkWorld {
  native : Native E;
  cheap : CHeap;
  go_ctxs : list DSSContextPtrs;
  go_dss : list Proxy;
}.
Arguments MkWorld {E} _ _ _ _.
Arguments native {E} _.
Arguments cheap {E} _.
Arguments go_ctxs {E} _.
Arguments go_dss {E} _.

(** ** The binding layer *)

Section Binding.
Context {E : Type} `{!DSS_CAPI E}.

(** Reading native memory, directly or through a Go pointer. *)
Definition read {A} (f : Mem -> addr -> A) (p : addr) : M (Native E) A :=
  gets (fun n => f (mem n) p).

Definition deref {A} (f : Mem -> addr -> A) (p : addr) : M (Native E) A :=
  nil_check p ;;; read f p.

(** [*p = v] for [p : *int32]. *)
Definition assign_i32 (p : addr) (v : Z) : M (Native E) unit :=
  nil_check p ;;; modify (fun n => set_mem n (store_i32 (mem n) p v)).

(** [copy(result, cdata)] for [cdata := unsafe.Slice(d, n)] and
    [result := make([]T, n)]: the [n] elements found from [d] on. *)
Definition copy_out {A} (f : Mem -> addr -> A) (size : Z) (d : addr) (n : Z)
  : M (Native E) (list A) :=
  unsafe_Slice d n ;;;
  make_check n ;;;
  gets (fun st => (fun i => f (mem st) (d + size * i)) <$> seqZ 0 n).

(** [func (ctx *DSSContextPtrs) DSSError() error] *)
Definition DSSError (ctx : DSSContextPtrs) : M (Native E) error :=
  n <- deref load_i32 (errorNumberPtr ctx) ;;
  if decide (n <> 0) then
    code <- deref load_i32 (errorNumberPtr ctx) ;;
    desc <- gets (fun st => GoString (mem st) (ctx_Error_Get_Description (ctxPtr ctx) st)) ;;
    let err_result := Errorf_DSSError code desc in
    assign_i32 (errorNumberPtr ctx) 0 ;;;
    ret err_result
  else ret None.

(** [func (ctx *DSSContextPtrs) GetFloat64ArrayGR() ([]float64, error)] *)
Definition GetFloat64ArrayGR (ctx : DSSContextPtrs) : M (Native E) (list float64 * error) :=
  err <- DSSError ctx ;;
  res_cnt <- deref load_i32 (CountPtr_PDouble ctx) ;;
  d <- deref load_ptr (DataPtr_PDouble ctx) ;;
  result <- copy_out load_f64 float64_size d res_cnt ;;
  ret (result, err).

(** [func (ctx *DSSContextPtrs) GetComplexArrayGR() ([]complex128, error)] *)
Definition GetComplexArrayGR (ctx : DSSContextPtrs) : M (Native E) (list complex128 * error) :=
  err <- DSSError ctx ;;
  res_cnt <- deref load_i32 (CountPtr_PDouble ctx) ;;
  let res_cnt := if decide (res_cnt = 1) then 0 else res_cnt in
  let res_cnt := wrap32 (res_cnt ÷ 2) in
  d <- deref load_ptr (DataPtr_PDouble ctx) ;;
  result <- copy_out load_c128 complex128_size d res_cnt ;;
  ret (result, err).

Definition invalid_complex_msg : string :=
  "(DSSError) Got invalid data for a complex number.".

(** [func (ctx *DSSContextPtrs) GetComplexSimpleGR() (complex128, error)] *)
Definition GetComplexSimpleGR (ctx : DSSContextPtrs) : M (Native E) (complex128 * error) :=
  err <- DSSError ctx ;;
  res_cnt <- deref load_i32 (CountPtr_PDouble ctx) ;;
  if decide (err = None /\ res_cnt <> 2) then
    ret (Complex 0 0, errors_New invalid_complex_msg)
  else
    cdata <- deref load_ptr (DataPtr_PDouble ctx) ;;
    c <- deref load_c128 cdata ;;
    ret (c, err).

(** [func (ctx *DSSContextPtrs) GetInt32ArrayGR() ([]int32, error)] *)
Definition GetInt32ArrayGR (ctx : DSSContextPtrs) : M (Native E) (list Z * error) :=
  err <- DSSError ctx ;;
  res_cnt <- deref load_i32 (CountPtr_PInteger ctx) ;;
  d <- deref load_ptr (DataPtr_PInteger ctx) ;;
  result <- copy_out load_i32 int32_size d res_cnt ;;
  ret (result, err).

(** [func (ctx *DSSContextPtrs) GetUInt8ArrayGR() ([]uint8, error)] *)
Definition GetUInt8ArrayGR (ctx : DSSContextPtrs) : M (Native E) (list Z * error) :=
  err <- DSSError ctx ;;
  res_cnt <- deref load_i32 (CountPtr_PByte ctx) ;;
  d <- deref load_ptr (DataPtr_PByte ctx) ;;
  result <- copy_out load_u8 1 d res_cnt ;;
  ret (result, err).

(** [func (ctx *DSSContextPtrs) GetStringArray(data **C.char, cnt [4]int32) ([]string, error)] *)
Definition GetStringArray (ctx : DSSContextPtrs) (data : addr) (cnt : Count4)
  : M (Native E) (list string * error) :=
  err <- DSSError ctx ;;
  let res_cnt := cnt0 cnt in
  result <- copy_out (fun m a => GoString m (load_ptr m a)) ptr_size data res_cnt ;;
  call_void (DSS_Dispose_PPAnsiChar data (cnt0 cnt)) ;;;
  ret (result, err).

(** [func (storages *IStorages) RegisterValues() ([]float64, error)];
    the receiver's [ctxPtr] and the block its [ctx] points to are given. *)
Definition IStorages_RegisterValues (h : handle) (ctx : DSSContextPtrs)
  : M (Native E) (list float64 * error) :=
  call_void (ctx_Storages_Get_RegisterValues_GR h) ;;;
  GetFloat64ArrayGR ctx.

(** [func (storages *IStorages) Get_idx() (int32, error)]: the engine's
    answer converted to [int32], then the error check. *)
Definition IStorages_Get_idx (h : handle) (ctx : DSSContextPtrs) : M (Native E) (Z * error) :=
  v <- call (ctx_Storages_Get_idx h) ;;
  err <- DSSError ctx ;;
  ret (wrap32 v, err).

(** [func (fuses *IFuses) Get_State() ([]string, error)] *)
Definition IFuses_Get_State (h : handle) (ctx : DSSContextPtrs)
  : M (Native E) (list string * error) :=
  r <- call (ctx_Fuses_Get_State h) ;;
  GetStringArray ctx r.1 r.2.

(** *** The shapes of the proxy getters

    The three getters above stand for all of their kind.  A getter that
    answers through a scratch buffer is one engine call on the proxy's
    handle, with the method's arguments if it has any, and then one of
    the five copy-out helpers; a getter that answers with an array of
    strings is the engine call that hands over the array, and then
    [GetStringArray]; a scalar getter is
    [return conv(C.f(x.ctxPtr)), x.ctx.DSSError()].  Below, [entry] is the
    engine call with the handle and the arguments applied, and [conv] the
    conversion to the Go type, which for a string reads native memory. *)
Definition buffer_getter {A} (entry : Native E -> Native E) (helper : M (Native E) A)
  : M (Native E) A :=
  call_void entry ;;; helper.

Definition strings_getter (entry : Native E -> (addr * Count4) * Native E)
    (ctx : DSSContextPtrs) : M (Native E) (list string * error) :=
  r <- call entry ;;
  GetStringArray ctx r.1 r.2.

Definition scalar_getter {R T} (entry : Native E -> R * Native E) (conv : Mem -> R -> T)
    (ctx : DSSContextPtrs) : M (Native E) (T * error) :=
  v <- call entry ;;
  t <- gets (fun st => conv (mem st) v) ;;
  err <- DSSError ctx ;;
  ret (t, err).

(** *** Outbound string arrays *)

(** The loop of [PrepareStringArray], from index [i] on. *)
Fixpoint fill_strings (data : addr) (i : Z) (value : list string) : M CHeap unit :=
  match value with
  | [] => ret tt
  | s :: rest =>
      p <- CString s ;;
      store_slot data i p ;;;
      fill_strings data (i + 1) rest
  end.

(** [func (ctx *DSSContextPtrs) PrepareStringArray(value []string) **C.char].
    The argument of [C.malloc] is [len(value)], a number of bytes. *)
Definition PrepareStringArray (value : list string) : M CHeap addr :=
  data <- malloc (Z.of_nat (length value)) ;;
  unsafe_Slice data (Z.of_nat (length value)) ;;;
  fill_strings data 0 value ;;;
  ret data.

(** The loop of [FreeStringArray]: [n] more slots, from index [i] on. *)
Fixpoint free_slots (data : addr) (i : Z) (n : nat) : M CHeap unit :=
  match n with
  | O => ret tt
  | S n' =>
      p <- gets (fun h => load_slot h data i) ;;
      free p ;;;
      free_slots data (i + 1) n'
  end.

(** [func (ctx *DSSContextPtrs) FreeStringArray(data **C.char, count int)] *)
Definition FreeStringArray (data : addr) (count : Z) : M CHeap unit :=
  unsafe_Slice data count ;;;
  free_slots data 0 (Z.to_nat count) ;;;
  free data.

Definition inNative {A} (c : M (Native E) A) : M (World E) A :=
  zoom native (fun w n => MkWorld n (cheap w) (go_ctxs w) (go_dss w)) c.

Definition inCHeap {A} (c : M CHeap A) : M (World E) A :=
  zoom cheap (fun w h => MkWorld (native w) h (go_ctxs w) (go_dss w)) c.

(** A foreign call that receives a [const char**]: it reads the C heap
    and acts on the native state. *)
Definition call_reading (f : CHeap -> Native E -> Native E) : M (World E) unit :=
  h <- gets cheap ;;
  inNative (call_void (f h)).

(** [func (fuses *IFuses) Set_State(value []string) error] *)
Definition IFuses_Set_State (h : handle) (ctx : DSSContextPtrs) (value : list string)
  : M (World E) error :=
  value_c <- inCHeap (PrepareStringArray value) ;;
  with_defer (inCHeap (FreeStringArray value_c (Z.of_nat (length value))))
    (call_reading (ctx_Fuses_Set_State h value_c (wrap32 (Z.of_nat (length value)))) ;;;
     inNative (DSSError ctx)).

(** [func (fuses *IFuses) Set_NormalState(value []string) error] *)
Definition IFuses_Set_NormalState (h : handle) (ctx : DSSContextPtrs) (value : list string)
  : M (World E) error :=
  value_c <- inCHeap (PrepareStringArray value) ;;
  with_defer (inCHeap (FreeStringArray value_c (Z.of_nat (length value))))
    (call_reading (ctx_Fuses_Set_NormalState h value_c (wrap32 (Z.of_nat (length value)))) ;;;
     inNative (DSSError ctx)).

(** [func (text *IText) Commands(value []string) error] *)
Definition IText_Commands (h : handle) (ctx : DSSContextPtrs) (value : list string)
  : M (World E) error :=
  value_c <- inCHeap (PrepareStringArray value) ;;
  with_defer (inCHeap (FreeStringArray value_c (Z.of_nat (length value))))
    (call_reading (ctx_Text_CommandArray h value_c (wrap32 (Z.of_nat (length value)))) ;;;
     inNative (DSSError ctx)).

(** [func (cktelement *ICktElement) Set_BusNames(value []string) error] *)
Definition ICktElement_Set_BusNames (h : handle) (ctx : DSSContextPtrs) (value : list string)
  : M (World E) error :=
  value_c <- inCHeap (PrepareStringArray value) ;;
  with_defer (inCHeap (FreeStringArray value_c (Z.of_nat (length value))))
    (call_reading (ctx_CktElement_Set_BusNames h value_c (wrap32 (Z.of_nat (length value)))) ;;;
     inNative (DSSError ctx)).

(** *** Context life cycle *)

(** [&DSSContextPtrs{}] and [&IDSS{}]: a fresh zero object on the Go heap. *)
Definition new_DSSContextPtrs : M (World E) goptr :=
  fun w => Ok (S (length (go_ctxs w)))
              (MkWorld (native w) (cheap w) (go_ctxs w ++ [DSSContextPtrs_zero]) (go_dss w)).

Definition new_IDSS : M (World E) goptr :=
  fun w => Ok (S (length (go_dss w)))
              (MkWorld (native w) (cheap w) (go_ctxs w) (go_dss w ++ [IDSS_zero])).

(** Access to a Go heap object through a pointer. *)
Definition heap_get {A} (sel : World E -> list A) (r : goptr) : M (World E) A :=
  fun w => match r with
           | O => Panic nil_msg w
           | S i => match sel w !! i with
                    | Some x => Ok x w
                    | None => Panic nil_msg w
                    end
           end.

Definition get_ctx : goptr -> M (World E) DSSContextPtrs := heap_get go_ctxs.
Definition get_dss : goptr -> M (World E) Proxy := heap_get go_dss.

Definition update_ctx (r : goptr) (f : DSSContextPtrs -> DSSContextPtrs) : M (World E) unit :=
  c <- get_ctx r ;;
  modify (fun w => MkWorld (native w) (cheap w) (<[pred r := f c]> (go_ctxs w)) (go_dss w)).

Definition update_dss (r : goptr) (f : Proxy -> Proxy) : M (World E) unit :=
  d <- get_dss r ;;
  modify (fun w => MkWorld (native w) (cheap w) (go_ctxs w) (<[pred r := f d]> (go_dss w))).

Definition set_ctxPtr (v : handle) (c : DSSContextPtrs) : DSSContextPtrs :=
  {| ctxPtr := v; errorNumberPtr := errorNumberPtr c;
     CountPtr_PDouble := CountPtr_PDouble c; CountPtr_PPChar := CountPtr_PPChar c;
     CountPtr_PInteger := CountPtr_PInteger c; CountPtr_PByte := CountPtr_PByte c;
     DataPtr_PDouble := DataPtr_PDouble c; DataPtr_PInteger := DataPtr_PInteger c;
     DataPtr_PByte := DataPtr_PByte c; DataPtr_PPChar := DataPtr_PPChar c |}.

Definition set_errorNumberPtr (v : addr) (c : DSSContextPtrs) : DSSContextPtrs :=
  {| ctxPtr := ctxPtr c; errorNumberPtr := v;
     CountPtr_PDouble := CountPtr_PDouble c; CountPtr_PPChar := CountPtr_PPChar c;
     CountPtr_PInteger := CountPtr_PInteger c; CountPtr_PByte := CountPtr_PByte c;
     DataPtr_PDouble := DataPtr_PDouble c; DataPtr_PInteger := DataPtr_PInteger c;
     DataPtr_PByte := DataPtr_PByte c; DataPtr_PPChar := DataPtr_PPChar c |}.

Definition set_GRPointers (g : GRPointers) (c : DSSContextPtrs) : DSSContextPtrs :=
  {| ctxPtr := ctxPtr c; errorNumberPtr := errorNumberPtr c;
     CountPtr_PDouble := gr_CountPtr_PDouble g; CountPtr_PPChar := gr_CountPtr_PPChar g;
     CountPtr_PInteger := gr_CountPtr_PInteger g; CountPtr_PByte := gr_CountPtr_PByte g;
     DataPtr_PDouble := gr_DataPtr_PDouble g; DataPtr_PInteger := gr_DataPtr_PInteger g;
     DataPtr_PByte := gr_DataPtr_PByte g; DataPtr_PPChar := gr_DataPtr_PPChar g |}.

(** [func (ctx *DSSContextPtrs) Init(ctxPtr unsafe.Pointer)] *)
Definition DSSContextPtrs_Init (ctx : goptr) (ctxPtr : handle) : M (World E) unit :=
  update_ctx ctx (set_ctxPtr ctxPtr) ;;;
  inNative (call (ctx_DSS_Start ctxPtr 0)) ;;;
  p <- inNative (call (ctx_Error_Get_NumberPtr ctxPtr)) ;;
  update_ctx ctx (set_errorNumberPtr p) ;;;
  g <- inNative (call (ctx_DSS_GetGRPointers ctxPtr)) ;;
  update_ctx ctx (set_GRPointers g).

(** [func (common *ICommonData) InitCommon(ctx *DSSContextPtrs)], given
    the block [target] that [ctx] points to. *)
Definition InitCommon (ctx : goptr) (target : DSSContextPtrs) : ICommonData :=
  {| cd_ctxPtr := ctxPtr target; cd_ctx := ctx |}.

(** The [Init(ctx)] of an interface struct: [InitCommon(ctx)], then
    [Init(ctx)] on every interface struct it holds.  The block behind
    [ctx] is not written meanwhile, so all of them see [target]. *)
Fixpoint Proxy_Init (ctx : goptr) (target : DSSContextPtrs) (p : Proxy) : Proxy :=
  match p with
  | MkProxy _ fs =>
      MkProxy (InitCommon ctx target)
              (List.map (fun f => (f.1, Proxy_Init ctx target f.2)) fs)
  end.

Definition set_cd_ctx (r : goptr) (p : Proxy) : Proxy :=
  MkProxy {| cd_ctxPtr := cd_ctxPtr (common p); cd_ctx := r |} (fields p).

Definition set_cd_ctxPtr (h : handle) (p : Proxy) : Proxy :=
  MkProxy {| cd_ctxPtr := h; cd_ctx := cd_ctx (common p) |} (fields p).

Definition init_fields (ctx : goptr) (target : DSSContextPtrs) (p : Proxy) : Proxy :=
  MkProxy (common p) (List.map (fun f => (f.1, Proxy_Init ctx target f.2)) (fields p)).

(** [func (dss *IDSS) Init(ctxPtr unsafe.Pointer)] *)
Definition IDSS_Init (dss : goptr) (ctxPtr : handle) : M (World E) unit :=
  ctxPtr <- (if decide (ctxPtr = 0) then
               p <- inNative (call ctx_Get_Prime) ;;
               inNative (call (ctx_DSS_Start p 0)) ;;;
               ret p
             else ret ctxPtr) ;;
  r <- new_DSSContextPtrs ;;
  update_dss dss (set_cd_ctx r) ;;;
  update_dss dss (set_cd_ctxPtr ctxPtr) ;;;
  d <- get_dss dss ;;
  DSSContextPtrs_Init (cd_ctx (common d)) (cd_ctxPtr (common d)) ;;;
  d <- get_dss dss ;;
  let ctx := cd_ctx (common d) in
  target <- get_ctx ctx ;;
  update_dss dss (init_fields ctx target).

Definition new_context_msg : string := "(DSSError) Could not create a new DSS Context".

(** [IDSS.NewContext], returning a pointer to the new [IDSS] and an
    error; the receiver is not used. *)
Definition IDSS_NewContext (dss : goptr) : M (World E) (goptr * error) :=
  newCtxPtr <- inNative (call ctx_New) ;;
  dssNew <- new_IDSS ;;
  IDSS_Init dssNew newCtxPtr ;;;
  if decide (newCtxPtr = 0) then ret (dssNew, errors_New new_context_msg)
  else ret (dssNew, None).

(** Modelled from the spec: the method [Dispose] of [IDSS], which
    examples/ctx_disposal.go calls on every new context, has no definition
    in the source at hand.  Section 4.1: "Dispose(): releases the
    engine-side instance"; the engine's entry point for that is
    [ctx_Dispose], applied to the context's own handle. *)
Definition IDSS_Dispose (dss : goptr) : M (World E) unit :=
  d <- get_dss dss ;;
  inNative (call_void (ctx_Dispose (cd_ctxPtr (common d)))).

End Binding.

(** ** Vocabulary of the statements

    What follows embeds no code: it names the things the properties
    speak about. *)

(** The state a computation ends in, whichever way it ends. *)
Definition final_state {S A} (o : outcome S A) : S :=
  match o with Ok _ s => s | Panic _ s => s end.

(** Slot [k] of the floating-point scratch buffer that starts at [d]. *)
Definition f64_slot (m : Mem) (d : addr) (k : Z) : float64 :=
  load_f64 m (d + float64_size * k).

(** [Init] has filled the block for the floating-point buffer: the error
    cell, the count cell and the data cell are there, and the error cell
    is not the count cell. *)
Definition double_ready (ctx : DSSContextPtrs) : Prop :=
  errorNumberPtr ctx <> 0 /\ CountPtr_PDouble ctx <> 0 /\ DataPtr_PDouble ctx <> 0 /\
  errorNumberPtr ctx <> CountPtr_PDouble ctx.

(** Element [i] of the buffer at [d] read as complex numbers. *)
Definition complex_pair (m : Mem) (d : addr) (i : Z) : complex128 :=
  Complex (f64_slot m d (2 * i)) (f64_slot m d (2 * i + 1)).

(** The blocks handed back in a trace, in order. *)
Definition freed (evs : list Event) : list addr :=
  omap (fun ev => match ev with EvFree p => Some p | _ => None end) evs.

(** The addresses [C.CString] returns for the strings of [value], when
    the allocator stands at [b]. *)
Fixpoint fill_ptrs (b : positive) (value : list string) : list addr :=
  match value with
  | [] => []
  | s :: rest =>
      Z.pos b :: fill_ptrs (b + Z.to_pos (Z.of_nat (String.length s) + 1)) rest
  end.

(** The trace the loop of [PrepareStringArray] leaves, from index [i] on:
    one duplicate and one pointer store per string. *)
Fixpoint fill_events (data : addr) (i : Z) (b : positive) (value : list string) : list Event :=
  match value with
  | [] => []
  | s :: rest =>
      EvMalloc (Z.pos b) (Z.of_nat (String.length s) + 1)
      :: EvStore data (ptr_size * i) ptr_size
      :: fill_events data (i + 1) (b + Z.to_pos (Z.of_nat (String.length s) + 1)) rest
  end.

(** A computation that leaves the C heap as it found it, however it ends. *)
Definition preserves_cheap {E A} (c : M (World E) A) : Prop :=
  forall w, cheap (final_state (c w)) = cheap w.

(** ** Proof automation *)

(** Run the first statement of a sequence, given an equation for it. *)
Ltac step_rewrite lem := unfold bind at 1; rewrite lem.
Tactic Notation "step_with" uconstr(lem) := step_rewrite lem.

(** ** A small engine, to run the model on concrete states

    Each instance [h] owns the page at [4096 * h]: the error number at its
    start, the description string 8 bytes on, then the GR cells.  Handle 1
    is the prime instance; [ctx_New] hands out 2, 3, ... until the
    capacity is used up, then the null handle. *)

Record Toy := { toy_created : Z; toy_capacity : Z }.

Definition toy_page (h : handle) : addr := 4096 * h.

Definition toy_GRPointers (h : handle) : GRPointers :=
  {| gr_DataPtr_PPChar := toy_page h + 64;
     gr_DataPtr_PDouble := toy_page h + 72;
     gr_DataPtr_PInteger := toy_page h + 80;
     gr_DataPtr_PByte := toy_page h + 88;
     gr_CountPtr_PPChar := toy_page h + 96;
     gr_CountPtr_PDouble := toy_page h + 112;
     gr_CountPtr_PInteger := toy_page h + 128;
     gr_CountPtr_PByte := toy_page h + 144 |}.

Definition toy_New (n : Native Toy) : handle * Native Toy :=
  if decide (toy_created (eng n) < toy_capacity (eng n)) then
    (toy_created (eng n) + 2,
     MkNative (mem n) {| toy_created := toy_created (eng n) + 1;
                         toy_capacity := toy_capacity (eng n) |})
  else (0, n).

(** Disposing of an instance made by [ctx_New] makes room for another. *)
Definition toy_Dispose (h : handle) (n : Native Toy) : Native Toy :=
  if decide (2 <= h) then
    MkNative (mem n) {| toy_created := toy_created (eng n);
                        toy_capacity := toy_capacity (eng n) + 1 |}
  else n.

(** The toy setter rejects an empty string with error 482. *)
Definition toy_Set_State (h : handle) (data : addr) (count : Z) (c : CHeap)
    (n : Native Toy) : Native Toy :=
  if bool_decide ("" ∈ heap_strings c data count)
  then set_mem n (store_i32 (mem n) (toy_page h) 482)
  else n.

Global Instance toy_capi : DSS_CAPI Toy := {|
  ctx_Get_Prime := fun n => (1, n);
  ctx_New := toy_New;
  ctx_Dispose := toy_Dispose;
  ctx_DSS_Start := fun _ _ n => (1, n);
  ctx_Error_Get_NumberPtr := fun h n => (toy_page h, n);
  ctx_Error_Get_Description := fun h _ => toy_page h + 8;
  ctx_DSS_GetGRPointers := fun h n => (toy_GRPointers h, n);
  DSS_Dispose_PPAnsiChar := fun _ _ n => n;
  ctx_Storages_Get_RegisterValues_GR := fun _ n => n;
  ctx_Fuses_Get_State := fun _ n => (0, {| cnt0 := 0; cnt1 := 0; cnt2 := 0; cnt3 := 0 |}, n);
  ctx_Fuses_Set_State := toy_Set_State;
  ctx_Fuses_Set_NormalState := toy_Set_State;
  ctx_CktElement_Set_BusNames := toy_Set_State;
  ctx_Text_CommandArray := toy_Set_State;
  ctx_Storages_Get_idx := fun _ n => (3, n);
|}.

(** The pointer block of instance [h], as [DSSContextPtrs.Init] fills it. *)
Definition toy_ctx (h : handle) : DSSContextPtrs :=
  set_GRPointers (toy_GRPointers h)
    (set_errorNumberPtr (toy_page h) (set_ctxPtr h DSSContextPtrs_zero)).

(** Bit patterns of 1.0, 2.0, 3.0 and 4.0. *)
Definition f64_1 : float64 := 0x3FF0000000000000.
Definition f64_2 : float64 := 0x4000000000000000.
Definition f64_3 : float64 := 0x4008000000000000.
Definition f64_4 : float64 := 0x4010000000000000.

(** Memory of the prime instance: error number [code], description
    "Invalid index", [count] in the floating-point count cell and the
    buffer [1.0; 2.0; 3.0; 4.0] at address 8192. *)
Definition toy_mem (code count : Z) : Mem :=
  {| mem_i32 := {[ toy_page 1 := code; toy_page 1 + 112 := count ]};
     mem_f64 := {[ 8192 := f64_1; 8200 := f64_2; 8208 := f64_3; 8216 := f64_4 ]};
     mem_u8 := ∅;
     mem_ptr := {[ toy_page 1 + 72 := 8192 ]};
     mem_str := {[ toy_page 1 + 8 := "Invalid index" ]} |}.

Definition toy_native (code count : Z) : Native Toy :=
  MkNative (toy_mem code count) {| toy_created := 0; toy_capacity := 1 |}.

(** Memory holding the engine-made string array ["a"; "b"] at 12288. *)
Definition toy_string_mem (code : Z) : Mem :=
  {| mem_i32 := {[ toy_page 1 := code ]};
     mem_f64 := ∅;
     mem_u8 := ∅;
     mem_ptr := {[ 12288 := 12304; 12296 := 12306 ]};
     mem_str := {[ toy_page 1 + 8 := "Invalid index"; 12304 := "a"; 12306 := "b" ]} |}.

Definition toy_string_native (code : Z) : Native Toy :=
  MkNative (toy_string_mem code) {| toy_created := 0; toy_capacity := 1 |}.

Definition heap0 : CHeap := {| blocks := ∅; brk := 1; events := [] |}.

(** A world whose engine still has room for [capacity] new instances. *)
Definition toy_world (capacity : Z) : World Toy :=
  MkWorld (MkNative (toy_mem 0 0) {| toy_created := 0; toy_capacity := capacity |})
          heap0 [] [].

(** * More of the binding layer *)

(** ** Further entry points of the engine

    The entry points behind the proxy methods modelled below.  A
    [const double*] or [const int32_t*] argument made from [&value[0]]
    gives the engine the elements of the Go slice. *)

Class DSS_CAPI_more (E : Type) := {
  ctx_Error_Get_Number : handle -> Native E -> Z * Native E;
  ctx_Lines_Get_Bus1 : handle -> Native E -> addr * Native E;
  ctx_DSS_Get_AllowForms : handle -> Native E -> Z * Native E;
  ctx_DSS_Set_AllowForms : handle -> Z -> Native E -> Native E;
  ctx_Lines_Set_Bus1 : handle -> addr -> CHeap -> Native E -> Native E;
  ctx_Lines_Set_Bus2 : handle -> addr -> CHeap -> Native E -> Native E;
  ctx_Lines_New : handle -> addr -> CHeap -> Native E -> Z * Native E;
  ctx_Lines_Set_Cmatrix : handle -> list float64 -> Z -> Native E -> Native E;
  ctx_Capacitors_Set_States : handle -> list Z -> Z -> Native E -> Native E;
  ctx_Circuit_SetActiveBusi : handle -> Z -> Native E -> Z * Native E;
  ctx_Circuit_SetActiveBus : handle -> addr -> CHeap -> Native E -> Z * Native E;
  ctx_Circuit_SetCktElementIndex : handle -> Z -> Native E -> Native E;
  ctx_Circuit_SetCktElementName : handle -> addr -> CHeap -> Native E -> Native E;
  ctx_DSS_NewCircuit : handle -> addr -> CHeap -> Native E -> Native E;
}.

(** A method receiver [x *IX], as far as a method reads it: nil, or a
    proxy, given by its [ctxPtr] and by the block its [ctx] points to.
    Reading a field of a nil receiver panics.  A proxy whose [ctx] is
    still nil is one whose block has a nil error pointer: [DSSError]
    panics at its first dereference either way. *)
Definition receiver : Type := option (handle * DSSContextPtrs).

Definition ctxPtr_of {S} (x : receiver) : M S handle :=
  match x with None => panic nil_msg | Some r => ret r.1 end.

Definition ctx_of {S} (x : receiver) : M S DSSContextPtrs :=
  match x with None => panic nil_msg | Some r => ret r.2 end.

(** A Go pointer to an interface struct held inside a heap object:
    [FieldRef obj path] is [&obj.f1.f2...] for the field names of [path]. *)
Inductive goref :=
  | NilRef
  | FieldRef (obj : goptr) (path : list string).

(** [&self.name] for the receiver [self = &obj.path]. *)
Definition field_of (obj : goptr) (path : list string) (name : string) : goref :=
  FieldRef obj (path ++ [name]).

(** Conversion of a C [uint16_t] to [bool] by [!= 0]. *)
Definition uint16_nonzero (x : Z) : bool := negb (x mod 2 ^ 16 =? 0).

(** [func ToUint16(v bool) C.uint16_t] *)
Definition ToUint16 (v : bool) : Z := if v then 1 else 0.



Section MoreBinding.
Context {E : Type} `{!DSS_CAPI E} `{!DSS_CAPI_more E}.

(** A foreign call that receives a [const char*] and returns a value. *)
Definition call_reading_ret {A} (f : CHeap -> Native E -> A * Native E) : M (World E) A :=
  h <- gets cheap ;;
  inNative (call (f h)).

(** [func (error *IError) Number() (int32, error)] *)
Definition IError_Number (h : handle) (ctx : DSSContextPtrs) : M (Native E) (Z * error) :=
  v <- call (ctx_Error_Get_Number h) ;;
  err <- DSSError ctx ;;
  ret (wrap32 v, err).

(** [func (lines *ILines) Get_Bus1() (string, error)] *)
Definition ILines_Get_Bus1 (h : handle) (ctx : DSSContextPtrs) : M (Native E) (string * error) :=
  p <- call (ctx_Lines_Get_Bus1 h) ;;
  s <- gets (fun st => GoString (mem st) p) ;;
  err <- DSSError ctx ;;
  ret (s, err).

(** [func (dss *IDSS) Get_AllowForms() (bool, error)] *)
Definition IDSS_Get_AllowForms (h : handle) (ctx : DSSContextPtrs) : M (Native E) (bool * error) :=
  v <- call (ctx_DSS_Get_AllowForms h) ;;
  err <- DSSError ctx ;;
  ret (uint16_nonzero v, err).

(** [func (dss *IDSS) Set_AllowForms(value bool) error] *)
Definition IDSS_Set_AllowForms (h : handle) (ctx : DSSContextPtrs) (value : bool)
  : M (Native E) error :=
  call_void (ctx_DSS_Set_AllowForms h (ToUint16 value)) ;;;
  DSSError ctx.



(** [func (lines *ILines) Set_Bus2(value string) error]: [lines.ctxPtr]
    is read after the C string is made, and the string is freed right
    after the call. *)
Definition ILines_Set_Bus2 (lines : receiver) (value : string) : M (World E) error :=
  value_c <- inCHeap (CString value) ;;
  h <- ctxPtr_of lines ;;
  call_reading (ctx_Lines_Set_Bus2 h value_c) ;;;
  inCHeap (free value_c) ;;;
  ctx <- ctx_of lines ;;
  inNative (DSSError ctx).

(** [func (lines *ILines) Set_Bus1(value string) error]: the [defer] comes
    after the call. *)
Definition ILines_Set_Bus1 (lines : receiver) (value : string) : M (World E) error :=
  value_c <- inCHeap (CString value) ;;
  h <- ctxPtr_of lines ;;
  call_reading (ctx_Lines_Set_Bus1 h value_c) ;;;
  with_defer (inCHeap (free value_c))
    (ctx <- ctx_of lines ;;
     inNative (DSSError ctx)).

(** [func (lines *ILines) New(Name string) (int32, error)]: the [defer]
    comes before the call, and so before [lines.ctxPtr] is read. *)
Definition ILines_New (lines : receiver) (Name : string) : M (World E) (Z * error) :=
  Name_c <- inCHeap (CString Name) ;;
  with_defer (inCHeap (free Name_c))
    (h <- ctxPtr_of lines ;;
     v <- call_reading_ret (ctx_Lines_New h Name_c) ;;
     ctx <- ctx_of lines ;;
     err <- inNative (DSSError ctx) ;;
     ret (wrap32 v, err)).

(** [ICircuit.Get_Buses(idx int32)], returning a pointer to an [IBus].
    The receiver is [&obj.path]; [h] and [ctx] are its [ctxPtr] and the
    block its [ctx] points to, as for the other proxy methods. *)
Definition ICircuit_Get_Buses (obj : goptr) (path : list string) (h : handle)
    (ctx : DSSContextPtrs) (idx : Z)
  : M (Native E) (goref * error) :=
  r <- call (ctx_Circuit_SetActiveBusi h (wrap32 idx)) ;;
  if decide (wrap32 r < 0) then
    err <- DSSError ctx ;;
    ret (NilRef, err)
  else
    err <- DSSError ctx ;;
    ret (field_of obj path "ActiveBus", err).

(** [ICircuit.get_Buses(name string)], returning a pointer to an [IBus]. *)
Definition ICircuit_get_Buses (obj : goptr) (path : list string) (h : handle)
    (ctx : DSSContextPtrs) (name : string)
  : M (World E) (goref * error) :=
  name_c <- inCHeap (CString name) ;;
  r <- call_reading_ret (ctx_Circuit_SetActiveBus h name_c) ;;
  if decide (wrap32 r < 0) then
    inCHeap (free name_c) ;;;
    err <- inNative (DSSError ctx) ;;
    ret (NilRef, err)
  else
    inCHeap (free name_c) ;;;
    err <- inNative (DSSError ctx) ;;
    ret (field_of obj path "ActiveBus", err).

(** [ICircuit.get_CktElementsi(idx int32)], returning a pointer to an
    [ICktElement]. *)
Definition ICircuit_get_CktElementsi (obj : goptr) (path : list string) (h : handle)
    (ctx : DSSContextPtrs) (idx : Z)
  : M (Native E) (goref * error) :=
  call_void (ctx_Circuit_SetCktElementIndex h (wrap32 idx)) ;;;
  err <- DSSError ctx ;;
  ret (field_of obj path "ActiveCktElement", err).

(** [ICircuit.get_CktElements(fullName string)], returning a pointer to an
    [ICktElement]. *)
Definition ICircuit_get_CktElements (obj : goptr) (path : list string) (h : handle)
    (ctx : DSSContextPtrs) (fullName : string) : M (World E) (goref * error) :=
  fullName_c <- inCHeap (CString fullName) ;;
  call_reading (ctx_Circuit_SetCktElementName h fullName_c) ;;;
  inCHeap (free fullName_c) ;;;
  err <- inNative (DSSError ctx) ;;
  ret (field_of obj path "ActiveCktElement", err).

(** [IDSS.NewCircuit(name string)], returning a pointer to an [ICircuit]. *)
Definition IDSS_NewCircuit (obj : goptr) (path : list string) (h : handle)
    (ctx : DSSContextPtrs) (name : string)
  : M (World E) (goref * error) :=
  name_c <- inCHeap (CString name) ;;
  call_reading (ctx_DSS_NewCircuit h name_c) ;;;
  inCHeap (free name_c) ;;;
  err <- inNative (DSSError ctx) ;;
  ret (field_of obj path "ActiveCircuit", err).

End MoreBinding.

(** ** More vocabulary of the statements *)

(** [Init] has filled the whole block, and the error cell is none of the
    three count cells read by the array getters. *)
Definition gr_ready (ctx : DSSContextPtrs) : Prop :=
  errorNumberPtr ctx <> 0 /\
  CountPtr_PDouble ctx <> 0 /\ DataPtr_PDouble ctx <> 0 /\
  CountPtr_PInteger ctx <> 0 /\ DataPtr_PInteger ctx <> 0 /\
  CountPtr_PByte ctx <> 0 /\ DataPtr_PByte ctx <> 0 /\
  errorNumberPtr ctx <> CountPtr_PDouble ctx /\
  errorNumberPtr ctx <> CountPtr_PInteger ctx /\
  errorNumberPtr ctx <> CountPtr_PByte ctx.

(** The scratch buffer described by the count cell [cnt] and the data
    cell [data] holds exactly the elements [vs], [size] bytes apart. *)
Definition buffer_holds {A} (load : Mem -> addr -> A) (size : Z) (m : Mem)
    (cnt data : addr) (vs : list A) : Prop :=
  load_i32 m cnt = Z.of_nat (length vs) /\
  (vs <> [] -> load_ptr m data <> 0) /\
  forall (i : nat) (v : A), vs !! i = Some v ->
    load m (load_ptr m data + size * Z.of_nat i) = v.

(** The two floats of each complex number, in buffer order. *)
Definition interleave (cs : list complex128) : list float64 :=
  flat_map (fun c => [real c; imag c]) cs.

(** ** The small engine, continued

    Bus indices 0, 1 and 2 exist and only the bus named "632" is known;
    any other selection answers -1 and leaves the error cell alone.
    [ctx_Error_Get_Number] resets the error number it returns, and the
    AllowForms flag is kept in a cell of the instance's page. *)

Definition toy_Get_Number (h : handle) (n : Native Toy) : Z * Native Toy :=
  (load_i32 (mem n) (toy_page h), set_mem n (store_i32 (mem n) (toy_page h) 0)).

Definition toy_SetActiveBusi (h : handle) (idx : Z) (n : Native Toy) : Z * Native Toy :=
  if decide (0 <= idx < 3) then (idx, n) else (-1, n).

Definition toy_SetActiveBus (h : handle) (name : addr) (c : CHeap) (n : Native Toy)
  : Z * Native Toy :=
  if decide (c_string_at c name = "632") then (2, n) else (-1, n).

Global Instance toy_capi_more : DSS_CAPI_more Toy := {|
  ctx_Error_Get_Number := toy_Get_Number;
  ctx_Lines_Get_Bus1 := fun h n => (toy_page h + 8, n);
  ctx_DSS_Get_AllowForms := fun h n => (load_i32 (mem n) (toy_page h + 256), n);
  ctx_DSS_Set_AllowForms := fun h v n => set_mem n (store_i32 (mem n) (toy_page h + 256) v);
  ctx_Lines_Set_Bus1 := fun _ _ _ n => n;
  ctx_Lines_Set_Bus2 := fun _ _ _ n => n;
  ctx_Lines_New := fun _ _ _ n => (1, n);
  ctx_Lines_Set_Cmatrix := fun _ _ _ n => n;
  ctx_Capacitors_Set_States := fun _ _ _ n => n;
  ctx_Circuit_SetActiveBusi := toy_SetActiveBusi;
  ctx_Circuit_SetActiveBus := toy_SetActiveBus;
  ctx_Circuit_SetCktElementIndex := fun _ _ n => n;
  ctx_Circuit_SetCktElementName := fun _ _ _ n => n;
  ctx_DSS_NewCircuit := fun _ _ _ n => n;
|}.

(** Memory of the prime instance with the integer buffer [7; -1; 9] at
    16384 and the byte buffer [1; 255] at 20480. *)
Definition toy_int_mem (code : Z) : Mem :=
  {| mem_i32 := {[ toy_page 1 := code; toy_page 1 + 128 := 3; toy_page 1 + 144 := 2;
                   16384 := 7; 16388 := -1; 16392 := 9 ]};
     mem_f64 := ∅;
     mem_u8 := {[ 20480 := 1; 20481 := 255 ]};
     mem_ptr := {[ toy_page 1 + 80 := 16384; toy_page 1 + 88 := 20480 ]};
     mem_str := {[ toy_page 1 + 8 := "Invalid index" ]} |}.

Definition toy_int_native (code : Z) : Native Toy :=
  MkNative (toy_int_mem code) {| toy_created := 0; toy_capacity := 1 |}.

(** * Properties *)

(** ** Memory and the monad *)

Lemma wrap32_small (z : Z) : - 2 ^ 31 <= z < 2 ^ 31 -> wrap32 z = z.
Proof.
  intros Hz. unfold wrap32.
  rewrite Z.mod_small by lia. lia.
Qed.

Lemma wrap32_range (z : Z) : - 2 ^ 31 <= wrap32 z < 2 ^ 31.
Proof.
  unfold wrap32.
  pose proof (Z.mod_pos_bound (z + 2 ^ 31) (2 ^ 32) ltac:(lia)). lia.
Qed.

Lemma load_i32_range (m : Mem) (a : addr) : - 2 ^ 31 <= load_i32 m a < 2 ^ 31.
Proof. apply wrap32_range. Qed.

Lemma load_i32_store_eq (m : Mem) (a : addr) (v : Z) :
  load_i32 (store_i32 m a v) a = wrap32 v.
Proof.
  unfold load_i32, store_i32; simpl.
  rewrite lookup_insert_eq; simpl.
  apply wrap32_small, wrap32_range.
Qed.

Lemma load_i32_store_ne (m : Mem) (a b : addr) (v : Z) :
  a <> b -> load_i32 (store_i32 m a v) b = load_i32 m b.
Proof.
  intros Hne. unfold load_i32, store_i32; simpl.
  by rewrite lookup_insert_ne.
Qed.

Lemma load_f64_store_i32 (m : Mem) (a b : addr) (v : Z) :
  load_f64 (store_i32 m a v) b = load_f64 m b.
Proof. reflexivity. Qed.

Lemma load_ptr_store_i32 (m : Mem) (a b : addr) (v : Z) :
  load_ptr (store_i32 m a v) b = load_ptr m b.
Proof. reflexivity. Qed.

Lemma nil_check_ok {S} (p : addr) (s : S) : p <> 0 -> nil_check p s = Ok tt s.
Proof. intros Hp. unfold nil_check. by destruct (decide (p = 0)). Qed.

Lemma unsafe_Slice_ok {S} (p : addr) (len : Z) (s : S) :
  0 <= len -> (len <> 0 -> p <> 0) -> unsafe_Slice p len s = Ok tt s.
Proof.
  intros Hlen Hp. unfold unsafe_Slice.
  destruct (decide (len < 0)); [lia|].
  destruct (decide (p = 0 /\ len <> 0)) as [[? ?]|]; [tauto|done].
Qed.

Lemma make_check_ok {S} (len : Z) (s : S) : 0 <= len -> make_check len s = Ok tt s.
Proof. intros Hlen. unfold make_check. destruct (decide (len < 0)); [lia|done]. Qed.

Section BindingFacts.
Context {E : Type} `{!DSS_CAPI E}.

Lemma deref_ok {A} (f : Mem -> addr -> A) (p : addr) (st : Native E) :
  p <> 0 -> deref f p st = Ok (f (mem st) p) st.
Proof.
  intros Hp. unfold deref, bind. by rewrite nil_check_ok.
Qed.

Lemma copy_out_ok {A} (f : Mem -> addr -> A) (size : Z) (d : addr) (n : Z) (st : Native E) :
  0 <= n -> (n <> 0 -> d <> 0) ->
  copy_out f size d n st = Ok ((fun i => f (mem st) (d + size * i)) <$> seqZ 0 n) st.
Proof.
  intros Hn Hd. unfold copy_out, bind.
  by rewrite unsafe_Slice_ok, make_check_ok.
Qed.

(** The error channel with nothing pending. *)
Lemma DSSError_clear (ctx : DSSContextPtrs) (st : Native E) :
  errorNumberPtr ctx <> 0 ->
  load_i32 (mem st) (errorNumberPtr ctx) = 0 ->
  DSSError ctx st = Ok None st.
Proof.
  intros Hp H0. unfold DSSError, bind.
  rewrite deref_ok by done. rewrite H0.
  by destruct (decide (0 <> 0)).
Qed.

(** The error channel with a fault pending. *)
Lemma DSSError_pending (ctx : DSSContextPtrs) (st : Native E) :
  errorNumberPtr ctx <> 0 ->
  load_i32 (mem st) (errorNumberPtr ctx) <> 0 ->
  DSSError ctx st =
    Ok (Errorf_DSSError (load_i32 (mem st) (errorNumberPtr ctx))
          (GoString (mem st) (ctx_Error_Get_Description (ctxPtr ctx) st)))
       (set_mem st (store_i32 (mem st) (errorNumberPtr ctx) 0)).
Proof.
  intros Hp Hn. unfold DSSError, bind.
  rewrite deref_ok by done.
  destruct (decide (load_i32 (mem st) (errorNumberPtr ctx) <> 0)); [|done].
  rewrite deref_ok by done.
  unfold gets, assign_i32, bind. by rewrite nil_check_ok.
Qed.

(** What [DSSError] leaves behind: only the error cell can differ, and it
    holds zero. *)
Lemma DSSError_total (ctx : DSSContextPtrs) (st : Native E) :
  errorNumberPtr ctx <> 0 ->
  exists err st',
    DSSError ctx st = Ok err st' /\
    (err = None <-> load_i32 (mem st) (errorNumberPtr ctx) = 0) /\
    load_i32 (mem st') (errorNumberPtr ctx) = 0 /\
    eng st' = eng st /\
    (forall a, a <> errorNumberPtr ctx -> load_i32 (mem st') a = load_i32 (mem st) a) /\
    (forall a, load_f64 (mem st') a = load_f64 (mem st) a) /\
    (forall a, load_ptr (mem st') a = load_ptr (mem st) a) /\
    (forall a, GoString (mem st') a = GoString (mem st) a).
Proof.
  intros Hp.
  destruct (decide (load_i32 (mem st) (errorNumberPtr ctx) = 0)) as [H0|Hn].
  - exists None, st. rewrite DSSError_clear by done. naive_solver.
  - eexists _, _. rewrite DSSError_pending by done.
    split; [done|]. simpl.
    split; [by unfold Errorf_DSSError|].
    split; [by rewrite load_i32_store_eq|].
    split; [done|].
    split; [intros a Ha; by rewrite load_i32_store_ne|done].
Qed.

End BindingFacts.

(** ** The error channel *)

Section ErrorChannel.
Context {E : Type} `{!DSS_CAPI E}.

(** C1. For every context state, [DSSError] returns [nil] exactly when the
    error-number cell is zero.  When the cell is nonzero the error returned
    is ["(DSSError#<code>) <description>"], built from the cell's value and
    the engine's description string, and the cell is reset to zero.  In
    both cases a second [DSSError] right after it returns [nil]. *)
Theorem DSSError_read_and_clear (ctx : DSSContextPtrs) (st : Native E) :
  errorNumberPtr ctx <> 0 ->
  exists err st',
    DSSError ctx st = Ok err st' /\
    (err = None <-> load_i32 (mem st) (errorNumberPtr ctx) = 0) /\
    (load_i32 (mem st) (errorNumberPtr ctx) <> 0 ->
       err = Some ("(DSSError#" +:+ pretty (load_i32 (mem st) (errorNumberPtr ctx)) +:+ ") "
                   +:+ GoString (mem st) (ctx_Error_Get_Description (ctxPtr ctx) st)) /\
       load_i32 (mem st') (errorNumberPtr ctx) = 0) /\
    DSSError ctx st' = Ok None st'.
Proof.
  intros Hp.
  destruct (decide (load_i32 (mem st) (errorNumberPtr ctx) = 0)) as [H0|Hn].
  - exists None, st. rewrite DSSError_clear by done. naive_solver.
  - eexists _, _. rewrite DSSError_pending by done.
    split; [done|].
    split; [by unfold Errorf_DSSError|].
    split.
    + intros _. split; [done|]. simpl. by rewrite load_i32_store_eq.
    + apply DSSError_clear; [done|]. simpl. by rewrite load_i32_store_eq.
Qed.

End ErrorChannel.

Lemma DSSError_read_and_clear_witness :
  exists err st',
    DSSError (toy_ctx 1) (toy_native 7 4) = Ok err st' /\
    (err = None <-> load_i32 (mem (toy_native 7 4)) (errorNumberPtr (toy_ctx 1)) = 0) /\
    (load_i32 (mem (toy_native 7 4)) (errorNumberPtr (toy_ctx 1)) <> 0 ->
       err = Some ("(DSSError#" +:+ pretty (load_i32 (mem (toy_native 7 4)) (errorNumberPtr (toy_ctx 1))) +:+ ") "
                   +:+ GoString (mem (toy_native 7 4))
                         (ctx_Error_Get_Description (ctxPtr (toy_ctx 1)) (toy_native 7 4))) /\
       load_i32 (mem st') (errorNumberPtr (toy_ctx 1)) = 0) /\
    DSSError (toy_ctx 1) st' = Ok None st'.
Proof.
  apply (DSSError_read_and_clear (toy_ctx 1) (toy_native 7 4)).
  vm_compute. discriminate.
Defined.

(** ** Complex results *)

Section ComplexCopyOut.
Context {E : Type} `{!DSS_CAPI E}.

Lemma load_c128_pair (m : Mem) (d : addr) (i : Z) :
  load_c128 m (d + complex128_size * i) = complex_pair m d i.
Proof.
  unfold load_c128, complex_pair, f64_slot, complex128_size, float64_size.
  f_equal; f_equal; lia.
Qed.

(** [GetComplexArrayGR] on a well-formed buffer: [k] pairs, the channel's
    error, and the state [DSSError] leaves. *)
Lemma GetComplexArrayGR_ok (ctx : DSSContextPtrs) (st : Native E) (k : Z) :
  double_ready ctx ->
  k = (if decide (load_i32 (mem st) (CountPtr_PDouble ctx) = 1) then 0
       else load_i32 (mem st) (CountPtr_PDouble ctx)) ÷ 2 ->
  0 <= k ->
  (k <> 0 -> load_ptr (mem st) (DataPtr_PDouble ctx) <> 0) ->
  exists err st',
    DSSError ctx st = Ok err st' /\
    GetComplexArrayGR ctx st =
      Ok (complex_pair (mem st) (load_ptr (mem st) (DataPtr_PDouble ctx)) <$> seqZ 0 k, err) st'.
Proof.
  intros (Herr & Hcnt & Hdata & Hne) Hk Hk0 Hd.
  destruct (DSSError_total ctx st Herr)
    as (err & st' & HE & _ & _ & _ & Hi32 & Hf64 & Hptr & _).
  exists err, st'. split; [done|].
  unfold GetComplexArrayGR, bind. rewrite HE.
  rewrite deref_ok by done. rewrite Hi32 by done.
  rewrite <- Hk.
  assert (wrap32 k = k) as ->.
  { apply wrap32_small.
    pose proof (load_i32_range (mem st) (CountPtr_PDouble ctx)) as Hr.
    subst k. destruct (decide _).
    - change (0 ÷ 2) with 0. lia.
    - split.
      + transitivity (- 2 ^ 31 ÷ 2); [by vm_compute|apply Z.quot_le_mono; lia].
      + apply Z.le_lt_trans with (2 ^ 31 ÷ 2); [apply Z.quot_le_mono; lia|by vm_compute]. }
  rewrite deref_ok by done. rewrite Hptr.
  rewrite copy_out_ok by (rewrite ?Hptr; done).
  unfold ret. do 2 f_equal.
  apply list_fmap_ext. intros _ i _.
  rewrite <- load_c128_pair. unfold load_c128. by rewrite !Hf64.
Qed.

(** C2. With [n] in the count cell of the floating-point buffer,
    [GetComplexArrayGR] returns [n / 2] complex numbers; the [i]-th has
    buffer slot [2 i] as real part and slot [2 i + 1] as imaginary part;
    with [n = 1] the result is empty. *)
Theorem GetComplexArrayGR_pairs (ctx : DSSContextPtrs) (st : Native E) (n : Z) :
  double_ready ctx ->
  load_i32 (mem st) (CountPtr_PDouble ctx) = n ->
  0 <= n ->
  (2 <= n -> load_ptr (mem st) (DataPtr_PDouble ctx) <> 0) ->
  exists result err st',
    GetComplexArrayGR ctx st = Ok (result, err) st' /\
    length result = Z.to_nat (n / 2) /\
    (n = 1 -> result = []) /\
    forall i : nat, (i < Z.to_nat (n / 2))%nat ->
      result !! i =
        Some (Complex
                (f64_slot (mem st) (load_ptr (mem st) (DataPtr_PDouble ctx)) (2 * Z.of_nat i))
                (f64_slot (mem st) (load_ptr (mem st) (DataPtr_PDouble ctx)) (2 * Z.of_nat i + 1))).
Proof.
  intros Hready Hn Hn0 Hd.
  assert ((if decide (n = 1) then 0 else n) ÷ 2 = n / 2) as Hk.
  { destruct (decide (n = 1)) as [->|]; [done|].
    rewrite Z.quot_div_nonneg by lia. done. }
  assert (0 <= n / 2) as Hk0 by (apply Z.div_pos; lia).
  destruct (GetComplexArrayGR_ok ctx st (n / 2) Hready) as (err & st' & _ & HG).
  - by rewrite Hn, Hk.
  - done.
  - intros Hnz. apply Hd.
    destruct (decide (n < 2)); [|lia].
    rewrite Z.div_small in Hnz by lia. done.
  - eexists _, err, st'. split; [exact HG|].
    split; [by rewrite length_fmap, length_seqZ|].
    split.
    + intros ->. done.
    + intros i Hi. rewrite list_lookup_fmap, lookup_seqZ_lt by lia.
      simpl. by rewrite Z.add_0_l.
Qed.

(** C10. With an odd count [n > 1], [GetComplexArrayGR] returns normally
    with [floor (n / 2) = (n - 1) / 2] complex numbers, made of slots
    [0 .. n - 2]; slot [n - 1] is left out, and the only error returned is
    whatever the error channel held, none when its cell was zero. *)
Theorem GetComplexArrayGR_odd_count (ctx : DSSContextPtrs) (st : Native E) (n : Z) :
  double_ready ctx ->
  load_i32 (mem st) (CountPtr_PDouble ctx) = n ->
  1 < n ->
  Z.odd n = true ->
  load_ptr (mem st) (DataPtr_PDouble ctx) <> 0 ->
  exists result err st',
    GetComplexArrayGR ctx st = Ok (result, err) st' /\
    DSSError ctx st = Ok err st' /\
    (load_i32 (mem st) (errorNumberPtr ctx) = 0 -> err = None) /\
    Z.of_nat (length result) = n / 2 /\
    2 * Z.of_nat (length result) = n - 1 /\
    result = complex_pair (mem st) (load_ptr (mem st) (DataPtr_PDouble ctx))
               <$> seqZ 0 ((n - 1) / 2).
Proof.
  intros Hready Hn Hn1 Hodd Hd.
  destruct (Z.odd_spec n) as [Hodd' _].
  destruct (Hodd' Hodd) as [m Hm].
  assert (n / 2 = m) as Hdiv by (symmetry; apply Z.div_unique with 1; lia).
  assert ((n - 1) / 2 = m) as Hdiv' by (symmetry; apply Z.div_unique with 0; lia).
  assert ((if decide (n = 1) then 0 else n) ÷ 2 = m) as Hk.
  { destruct (decide (n = 1)); [lia|].
    rewrite Z.quot_div_nonneg by lia. done. }
  destruct (GetComplexArrayGR_ok ctx st m Hready) as (err & st' & HE & HG).
  - by rewrite Hn, Hk.
  - lia.
  - done.
  - exists (complex_pair (mem st) (load_ptr (mem st) (DataPtr_PDouble ctx)) <$> seqZ 0 m),
      err, st'.
    split; [exact HG|]. split; [exact HE|].
    split.
    { intros H0. destruct Hready as (Herr & _).
      rewrite (DSSError_clear ctx st Herr H0) in HE. by injection HE. }
    rewrite length_fmap, length_seqZ, Hdiv, Hdiv'.
    repeat split; lia.
Qed.

End ComplexCopyOut.

Lemma toy_gr_ready : gr_ready (toy_ctx 1).
Proof. unfold gr_ready; vm_compute; repeat split; discriminate. Qed.

Lemma toy_double_ready : double_ready (toy_ctx 1).
Proof. unfold double_ready; vm_compute; repeat split; discriminate. Qed.

Lemma GetComplexArrayGR_pairs_witness :
  load_i32 (mem (toy_native 0 4)) (CountPtr_PDouble (toy_ctx 1)) = 4 /\
  exists result err st',
    GetComplexArrayGR (toy_ctx 1) (toy_native 0 4) = Ok (result, err) st' /\
    length result = 2%nat /\
    result !! 1%nat = Some (Complex f64_3 f64_4).
Proof.
  split; [reflexivity|].
  destruct (GetComplexArrayGR_pairs (toy_ctx 1) (toy_native 0 4) 4)
    as (result & err & st' & HG & Hlen & _ & Hi).
  - exact toy_double_ready.
  - reflexivity.
  - lia.
  - intros _. vm_compute. discriminate.
  - exists result, err, st'. split; [exact HG|]. split; [exact Hlen|].
    apply (Hi 1%nat). vm_compute. lia.
Defined.

Lemma GetComplexArrayGR_odd_count_witness :
  load_i32 (mem (toy_native 0 3)) (CountPtr_PDouble (toy_ctx 1)) = 3 /\
  exists result st',
    GetComplexArrayGR (toy_ctx 1) (toy_native 0 3) = Ok (result, None) st' /\
    length result = 1%nat.
Proof.
  split; [reflexivity|].
  destruct (GetComplexArrayGR_odd_count (toy_ctx 1) (toy_native 0 3) 3)
    as (result & err & st' & HG & _ & Herr & Hlen & _).
  - exact toy_double_ready.
  - reflexivity.
  - lia.
  - reflexivity.
  - vm_compute. discriminate.
  - exists result, st'. rewrite Herr in HG by reflexivity.
    split; [exact HG|]. change (3 / 2) with 1 in Hlen. lia.
Defined.

(** ** A single complex result *)

(** The marshalling fault is no error-channel text: those start with
    ["(DSSError#"]. *)
Lemma Errorf_DSSError_not_marshalling (code : Z) (desc : string) :
  Errorf_DSSError code desc <> errors_New invalid_complex_msg.
Proof. unfold Errorf_DSSError, errors_New, invalid_complex_msg. simpl. discriminate. Qed.

Section SingleComplex.
Context {E : Type} `{!DSS_CAPI E}.

(** With a fault pending and a data pointer that is not nil,
    [GetComplexSimpleGR] does not look at the count. *)
Lemma GetComplexSimpleGR_pending (ctx : DSSContextPtrs) (st : Native E) :
  double_ready ctx ->
  load_i32 (mem st) (errorNumberPtr ctx) <> 0 ->
  load_ptr (mem st) (DataPtr_PDouble ctx) <> 0 ->
  GetComplexSimpleGR ctx st =
    Ok (complex_pair (mem st) (load_ptr (mem st) (DataPtr_PDouble ctx)) 0,
        Errorf_DSSError (load_i32 (mem st) (errorNumberPtr ctx))
          (GoString (mem st) (ctx_Error_Get_Description (ctxPtr ctx) st)))
       (set_mem st (store_i32 (mem st) (errorNumberPtr ctx) 0)).
Proof.
  intros (Herr & Hcnt & Hdata & Hne) Hpend Hd.
  unfold GetComplexSimpleGR, bind.
  rewrite DSSError_pending by done.
  rewrite deref_ok by done.
  destruct (decide _) as [[Hnone _]|_]; [discriminate Hnone|].
  rewrite deref_ok by done. simpl.
  rewrite deref_ok by (rewrite load_ptr_store_i32; exact Hd). simpl.
  unfold ret. do 2 f_equal.
  unfold load_c128, complex_pair, f64_slot, float64_size.
  rewrite !load_f64_store_i32, !load_ptr_store_i32.
  f_equal; f_equal; lia.
Qed.

(** C3, as the code has it.  With the error cell at zero and a count other
    than 2, [GetComplexSimpleGR] returns the zero value and the
    marshalling fault "invalid data for a complex number", which is not an
    error-channel text, and leaves the state alone.  With a fault pending
    in the error cell the count is not looked at: when the data pointer of
    the buffer is not nil, that fault is returned together with the
    complex number found at the first two buffer slots, and the cell is
    reset; when the data pointer is nil, the call panics on the
    dereference, after the cell has been reset, and the fault is lost. *)
Theorem GetComplexSimpleGR_count_mismatch (ctx : DSSContextPtrs) (st : Native E) :
  double_ready ctx ->
  let code := load_i32 (mem st) (errorNumberPtr ctx) in
  let count := load_i32 (mem st) (CountPtr_PDouble ctx) in
  let d := load_ptr (mem st) (DataPtr_PDouble ctx) in
  let reset := set_mem st (store_i32 (mem st) (errorNumberPtr ctx) 0) in
  (code = 0 -> count <> 2 ->
     GetComplexSimpleGR ctx st = Ok (Complex 0 0, Some invalid_complex_msg) st /\
     forall code' desc, Errorf_DSSError code' desc <> Some invalid_complex_msg) /\
  (code <> 0 -> d <> 0 ->
     GetComplexSimpleGR ctx st =
       Ok (complex_pair (mem st) d 0,
           Errorf_DSSError code
             (GoString (mem st) (ctx_Error_Get_Description (ctxPtr ctx) st)))
          reset) /\
  (code <> 0 -> d = 0 ->
     GetComplexSimpleGR ctx st = Panic nil_msg reset /\
     load_i32 (mem reset) (errorNumberPtr ctx) = 0).
Proof.
  intros Hready code count d reset.
  pose proof Hready as (Herr & Hcnt & Hdata & Hne). split; [|split].
  - intros H0 Hn2. split; [|apply Errorf_DSSError_not_marshalling].
    unfold GetComplexSimpleGR, bind.
    rewrite DSSError_clear by done.
    rewrite deref_ok by done.
    destruct (decide _) as [_|Hno]; [done|].
    exfalso. apply Hno. done.
  - intros Hpend Hd. by apply GetComplexSimpleGR_pending.
  - intros Hpend Hd. split; [|subst reset; simpl; by rewrite load_i32_store_eq].
    unfold GetComplexSimpleGR, bind.
    rewrite DSSError_pending by done.
    rewrite deref_ok by done.
    destruct (decide _) as [[Hnone _]|_]; [discriminate Hnone|].
    rewrite deref_ok by done. simpl.
    rewrite load_ptr_store_i32. fold d. rewrite Hd.
    reflexivity.
Qed.

End SingleComplex.

Lemma GetComplexSimpleGR_count_mismatch_witness :
  load_i32 (mem (toy_native 0 4)) (CountPtr_PDouble (toy_ctx 1)) = 4 /\
  GetComplexSimpleGR (toy_ctx 1) (toy_native 0 4)
    = Ok (Complex 0 0, Some invalid_complex_msg) (toy_native 0 4).
Proof.
  split; [reflexivity|].
  destruct (GetComplexSimpleGR_count_mismatch (toy_ctx 1) (toy_native 0 4) toy_double_ready)
    as (Hclear & _).
  apply Hclear; [reflexivity|vm_compute; discriminate].
Defined.

(** C3 as stated fails: with error 7 pending and a count of 4, the result
    is the pending error and the first buffer pair, not the marshalling
    fault with a zero value. *)
Lemma GetComplexSimpleGR_pending_error_wins :
  load_i32 (mem (toy_native 7 4)) (CountPtr_PDouble (toy_ctx 1)) <> 2 /\
  GetComplexSimpleGR (toy_ctx 1) (toy_native 7 4)
    = Ok (Complex f64_1 f64_2, Some "(DSSError#7) Invalid index") (toy_native 0 4) /\
  ~ (exists st', GetComplexSimpleGR (toy_ctx 1) (toy_native 7 4)
                 = Ok (Complex 0 0, Some invalid_complex_msg) st').
Proof.
  assert (GetComplexSimpleGR (toy_ctx 1) (toy_native 7 4)
    = Ok (Complex f64_1 f64_2, Some "(DSSError#7) Invalid index") (toy_native 0 4)) as Hrun
    by (vm_compute; reflexivity).
  split; [vm_compute; discriminate|]. split; [exact Hrun|].
  intros [st' Hst']. rewrite Hrun in Hst'. discriminate Hst'.
Qed.

(** ** What a getter returns beside an error *)

Section FailingGetters.
Context {E : Type} `{!DSS_CAPI E}.

(** [GetFloat64ArrayGR] on a well-formed buffer: the [n] slots the count
    cell announces, and the channel's error, whatever it is. *)
Lemma GetFloat64ArrayGR_ok (ctx : DSSContextPtrs) (st : Native E) :
  double_ready ctx ->
  0 <= load_i32 (mem st) (CountPtr_PDouble ctx) ->
  (load_i32 (mem st) (CountPtr_PDouble ctx) <> 0 ->
   load_ptr (mem st) (DataPtr_PDouble ctx) <> 0) ->
  exists err st',
    DSSError ctx st = Ok err st' /\
    GetFloat64ArrayGR ctx st =
      Ok (f64_slot (mem st) (load_ptr (mem st) (DataPtr_PDouble ctx))
            <$> seqZ 0 (load_i32 (mem st) (CountPtr_PDouble ctx)), err) st'.
Proof.
  intros (Herr & Hcnt & Hdata & Hne) Hn Hd.
  destruct (DSSError_total ctx st Herr)
    as (err & st' & HE & _ & _ & _ & Hi32 & Hf64 & Hptr & _).
  exists err, st'. split; [done|].
  unfold GetFloat64ArrayGR, bind. rewrite HE.
  rewrite deref_ok by done. rewrite Hi32 by done.
  rewrite deref_ok by done. rewrite Hptr.
  rewrite copy_out_ok by done.
  unfold ret. do 2 f_equal.
  apply list_fmap_ext. intros _ i _. unfold f64_slot. by rewrite Hf64.
Qed.

(** [GetStringArray]: the [cnt[0]] strings the array points to, and the
    channel's error, whatever it is. *)
Lemma GetStringArray_ok (ctx : DSSContextPtrs) (data : addr) (cnt : Count4) (st : Native E) :
  errorNumberPtr ctx <> 0 ->
  0 <= cnt0 cnt ->
  (cnt0 cnt <> 0 -> data <> 0) ->
  exists err st',
    DSSError ctx st = Ok err st' /\
    GetStringArray ctx data cnt st =
      Ok ((fun i => GoString (mem st) (load_ptr (mem st) (data + ptr_size * i)))
            <$> seqZ 0 (cnt0 cnt), err)
         (DSS_Dispose_PPAnsiChar data (cnt0 cnt) st').
Proof.
  intros Herr Hn Hd.
  destruct (DSSError_total ctx st Herr)
    as (err & st' & HE & _ & _ & _ & _ & _ & Hptr & Hstr).
  exists err, st'. split; [done|].
  unfold GetStringArray, bind. rewrite HE.
  rewrite copy_out_ok by done.
  unfold call_void, ret. simpl. do 2 f_equal.
  apply list_fmap_ext. intros _ i _. by rewrite Hptr, Hstr.
Qed.

(** The copy-out helpers for [int32] and bytes on a well-formed buffer
    with a fault pending: the elements are read after the error cell has
    been reset. *)
Lemma GetInt32ArrayGR_pending (ctx : DSSContextPtrs) (st : Native E) :
  gr_ready ctx ->
  load_i32 (mem st) (errorNumberPtr ctx) <> 0 ->
  0 <= load_i32 (mem st) (CountPtr_PInteger ctx) ->
  (load_i32 (mem st) (CountPtr_PInteger ctx) <> 0 ->
   load_ptr (mem st) (DataPtr_PInteger ctx) <> 0) ->
  let reset := set_mem st (store_i32 (mem st) (errorNumberPtr ctx) 0) in
  GetInt32ArrayGR ctx st =
    Ok ((fun i => load_i32 (mem reset)
                    (load_ptr (mem st) (DataPtr_PInteger ctx) + int32_size * i))
          <$> seqZ 0 (load_i32 (mem st) (CountPtr_PInteger ctx)),
        Errorf_DSSError (load_i32 (mem st) (errorNumberPtr ctx))
          (GoString (mem st) (ctx_Error_Get_Description (ctxPtr ctx) st)))
       reset.
Proof.
  intros (Herr & _ & _ & HcI & HdI & _ & _ & _ & HneI & _) Hpend Hn Hd reset.
  unfold GetInt32ArrayGR, bind.
  rewrite DSSError_pending by done. fold reset.
  rewrite deref_ok by done. simpl.
  rewrite load_i32_store_ne by done.
  rewrite deref_ok by done. simpl.
  rewrite load_ptr_store_i32.
  by rewrite copy_out_ok.
Qed.

Lemma GetUInt8ArrayGR_pending (ctx : DSSContextPtrs) (st : Native E) :
  gr_ready ctx ->
  load_i32 (mem st) (errorNumberPtr ctx) <> 0 ->
  0 <= load_i32 (mem st) (CountPtr_PByte ctx) ->
  (load_i32 (mem st) (CountPtr_PByte ctx) <> 0 ->
   load_ptr (mem st) (DataPtr_PByte ctx) <> 0) ->
  GetUInt8ArrayGR ctx st =
    Ok ((fun i => load_u8 (mem st) (load_ptr (mem st) (DataPtr_PByte ctx) + 1 * i))
          <$> seqZ 0 (load_i32 (mem st) (CountPtr_PByte ctx)),
        Errorf_DSSError (load_i32 (mem st) (errorNumberPtr ctx))
          (GoString (mem st) (ctx_Error_Get_Description (ctxPtr ctx) st)))
       (set_mem st (store_i32 (mem st) (errorNumberPtr ctx) 0)).
Proof.
  intros (Herr & _ & _ & _ & _ & HcB & HdB & _ & _ & HneB) Hpend Hn Hd.
  unfold GetUInt8ArrayGR, bind.
  rewrite DSSError_pending by done.
  rewrite deref_ok by done. simpl.
  rewrite load_i32_store_ne by done.
  rewrite deref_ok by done. simpl.
  rewrite load_ptr_store_i32.
  by rewrite copy_out_ok.
Qed.

(** C6, as the code has it.  When the engine call of a getter leaves a
    fault in the error cell, the getter returns that fault together with
    its ordinary result, read from what the engine left; nothing is
    emptied or zeroed on account of the error.  A getter that ends in
    [GetFloat64ArrayGR], [GetInt32ArrayGR] or [GetUInt8ArrayGR] returns as
    many buffer elements as the count cell says, and one that ends in
    [GetStringArray] the [cnt[0]] strings of the array it was handed, the
    count being not negative and the data pointer not nil unless the count
    is zero.  One that ends in [GetComplexArrayGR] returns half as many
    complex numbers as the count cell says, and none for a count of 1,
    under the same conditions on the halved count.  One that ends in
    [GetComplexSimpleGR] returns the complex number at the first two
    buffer slots, the data pointer being not nil.  A scalar getter returns
    the engine's value, converted.  A sequence so returned is empty only
    when its length, the count or the halved count, is zero. *)
Theorem getters_copy_out_beside_error (ctx : DSSContextPtrs) (st : Native E) :
  gr_ready ctx ->
  let failing (st1 : Native E) := load_i32 (mem st1) (errorNumberPtr ctx) <> 0 in
  let fault (st1 : Native E) :=
    Errorf_DSSError (load_i32 (mem st1) (errorNumberPtr ctx))
      (GoString (mem st1) (ctx_Error_Get_Description (ctxPtr ctx) st1)) in
  let reset (st1 : Native E) :=
    set_mem st1 (store_i32 (mem st1) (errorNumberPtr ctx) 0) in
  (forall entry : Native E -> Native E,
     let st1 := entry st in
     let nD := load_i32 (mem st1) (CountPtr_PDouble ctx) in
     let dD := load_ptr (mem st1) (DataPtr_PDouble ctx) in
     let kD := (if decide (nD = 1) then 0 else nD) ÷ 2 in
     let nI := load_i32 (mem st1) (CountPtr_PInteger ctx) in
     let dI := load_ptr (mem st1) (DataPtr_PInteger ctx) in
     let nB := load_i32 (mem st1) (CountPtr_PByte ctx) in
     let dB := load_ptr (mem st1) (DataPtr_PByte ctx) in
     failing st1 ->
     (0 <= nD -> (nD <> 0 -> dD <> 0) ->
      buffer_getter entry (GetFloat64ArrayGR ctx) st
        = Ok (f64_slot (mem st1) dD <$> seqZ 0 nD, fault st1) (reset st1)) /\
     (0 <= kD -> (kD <> 0 -> dD <> 0) ->
      buffer_getter entry (GetComplexArrayGR ctx) st
        = Ok (complex_pair (mem st1) dD <$> seqZ 0 kD, fault st1) (reset st1)) /\
     (dD <> 0 ->
      buffer_getter entry (GetComplexSimpleGR ctx) st
        = Ok (complex_pair (mem st1) dD 0, fault st1) (reset st1)) /\
     (0 <= nI -> (nI <> 0 -> dI <> 0) ->
      buffer_getter entry (GetInt32ArrayGR ctx) st
        = Ok ((fun i => load_i32 (mem (reset st1)) (dI + int32_size * i)) <$> seqZ 0 nI,
              fault st1) (reset st1)) /\
     (0 <= nB -> (nB <> 0 -> dB <> 0) ->
      buffer_getter entry (GetUInt8ArrayGR ctx) st
        = Ok ((fun i => load_u8 (mem st1) (dB + 1 * i)) <$> seqZ 0 nB, fault st1)
             (reset st1))) /\
  (forall entry : Native E -> (addr * Count4) * Native E,
     let data := (entry st).1.1 in
     let n := cnt0 (entry st).1.2 in
     let st1 := (entry st).2 in
     failing st1 -> 0 <= n -> (n <> 0 -> data <> 0) ->
     strings_getter entry ctx st
       = Ok ((fun i => GoString (mem st1) (load_ptr (mem st1) (data + ptr_size * i)))
               <$> seqZ 0 n, fault st1)
            (DSS_Dispose_PPAnsiChar data n (reset st1))) /\
  (forall (R T : Type) (entry : Native E -> R * Native E) (conv : Mem -> R -> T),
     let st1 := (entry st).2 in
     failing st1 ->
     scalar_getter entry conv ctx st
       = Ok (conv (mem st1) (entry st).1, fault st1) (reset st1)) /\
  (forall st1, fault st1 <> None) /\
  (forall (A : Type) (g : Z -> A) (n : Z), 0 <= n -> g <$> seqZ 0 n = [] <-> n = 0) /\
  (forall h,
     IStorages_RegisterValues h ctx st
       = buffer_getter (ctx_Storages_Get_RegisterValues_GR h) (GetFloat64ArrayGR ctx) st /\
     IFuses_Get_State h ctx st = strings_getter (ctx_Fuses_Get_State h) ctx st /\
     IStorages_Get_idx h ctx st
       = scalar_getter (ctx_Storages_Get_idx h) (fun _ => wrap32) ctx st).
Proof.
  intros Hgr failing fault reset.
  pose proof Hgr as (Herr & HcD & HdD & _ & _ & _ & _ & HneD & _).
  assert (double_ready ctx) as Hready by (unfold double_ready; done).
  split; [|split; [|split; [|split; [|split]]]].
  - intros entry st1 nD dD kD nI dI nB dB Hpend.
    unfold buffer_getter, bind, call_void. fold st1.
    split; [|split; [|split; [|split]]].
    + intros Hn Hd.
      destruct (GetFloat64ArrayGR_ok ctx st1 Hready Hn Hd) as (err & st' & HE & HG).
      rewrite DSSError_pending in HE by done. injection HE as <- <-. exact HG.
    + intros Hk Hd.
      destruct (GetComplexArrayGR_ok ctx st1 kD Hready eq_refl Hk Hd)
        as (err & st' & HE & HG).
      rewrite DSSError_pending in HE by done. injection HE as <- <-. exact HG.
    + intros Hd. by apply GetComplexSimpleGR_pending.
    + intros Hn Hd. by apply GetInt32ArrayGR_pending.
    + intros Hn Hd. by apply GetUInt8ArrayGR_pending.
  - intros entry data n st1 Hpend Hn Hd.
    destruct (GetStringArray_ok ctx data (entry st).1.2 st1 Herr Hn Hd)
      as (err & st' & HE & HG).
    rewrite DSSError_pending in HE by done. injection HE as <- <-.
    unfold strings_getter, bind, call. exact HG.
  - intros R T entry conv st1 Hpend.
    unfold scalar_getter, bind, call, gets. fold st1.
    by rewrite DSSError_pending.
  - intros st1. unfold fault, Errorf_DSSError. discriminate.
  - intros A g n Hn. split.
    + intros Hnil. apply (f_equal length) in Hnil.
      rewrite length_fmap, length_seqZ in Hnil. simpl in Hnil. lia.
    + intros ->. done.
  - intros h. repeat split.
Qed.

End FailingGetters.

Lemma getters_copy_out_beside_error_witness :
  load_i32 (mem (toy_native 7 2)) (errorNumberPtr (toy_ctx 1)) = 7 /\
  exists msg st',
    IStorages_RegisterValues 1 (toy_ctx 1) (toy_native 7 2) = Ok ([f64_1; f64_2], Some msg) st'.
Proof.
  split; [reflexivity|].
  destruct (getters_copy_out_beside_error (toy_ctx 1) (toy_native 7 2) toy_gr_ready)
    as (Hbuf & _ & _ & _ & _ & Hinst).
  destruct (Hinst 1) as (-> & _).
  destruct (Hbuf (ctx_Storages_Get_RegisterValues_GR 1)) as (Hfloat & _).
  { vm_compute. discriminate. }
  eexists _, _. rewrite Hfloat.
  - reflexivity.
  - vm_compute. discriminate.
  - intros _. vm_compute. discriminate.
Defined.

(** C6 as stated fails: with error 7 pending, [GetFloat64ArrayGR] returns
    the two buffered values and [GetStringArray] the two strings, each
    beside the error. *)
Lemma getters_nonempty_beside_error :
  GetFloat64ArrayGR (toy_ctx 1) (toy_native 7 2)
    = Ok ([f64_1; f64_2], Some "(DSSError#7) Invalid index") (toy_native 0 2) /\
  GetStringArray (toy_ctx 1) 12288 {| cnt0 := 2; cnt1 := 0; cnt2 := 0; cnt3 := 0 |}
      (toy_string_native 7)
    = Ok (["a"; "b"], Some "(DSSError#7) Invalid index") (toy_string_native 0) /\
  IStorages_RegisterValues 1 (toy_ctx 1) (toy_native 7 2)
    = Ok ([f64_1; f64_2], Some "(DSSError#7) Invalid index") (toy_native 0 2) /\
  [f64_1; f64_2] <> [].
Proof. repeat split; try (vm_compute; reflexivity). discriminate. Qed.

(** ** The C heap *)

Lemma CString_run (s : string) (h : CHeap) :
  exists h',
    CString s h = Ok (Z.pos (brk h)) h' /\
    events h' = events h ++ [EvMalloc (Z.pos (brk h)) (Z.of_nat (String.length s) + 1)] /\
    brk h' = (brk h + Z.to_pos (Z.of_nat (String.length s) + 1))%positive /\
    (forall data, data <> Z.pos (brk h) -> blocks h' !! data = blocks h !! data).
Proof.
  eexists. split; [reflexivity|]. simpl.
  repeat split. intros data Hne. by rewrite lookup_insert_ne.
Qed.

Lemma fill_events_freed (data : addr) (value : list string) :
  forall i b, freed (fill_events data i b value) = [].
Proof.
  induction value as [|s rest IH]; intros i b; simpl; [done|].
  by rewrite IH.
Qed.

Lemma fill_ptrs_length (value : list string) :
  forall b, length (fill_ptrs b value) = length value.
Proof. induction value as [|s rest IH]; intros b; simpl; [done|]. by rewrite IH. Qed.

Lemma fill_ptrs_ge (value : list string) :
  forall b p, p ∈ fill_ptrs b value -> Z.pos b <= p.
Proof.
  induction value as [|s rest IH]; intros b p Hp; simpl in Hp.
  - by apply elem_of_nil in Hp.
  - apply elem_of_cons in Hp as [->|Hp]; [lia|].
    apply IH in Hp. lia.
Qed.

(** The loop of [PrepareStringArray]: its trace, and the slots it leaves
    in the array at [data]. *)
Lemma fill_strings_run (value : list string) :
  forall (data : addr) (i : Z) (h : CHeap),
    data < Z.pos (brk h) ->
    is_Some (blocks h !! data) ->
    exists h',
      fill_strings data i value h = Ok tt h' /\
      events h' = events h ++ fill_events data i (brk h) value /\
      is_Some (blocks h' !! data) /\
      (forall j : nat, (j < length value)%nat ->
         Some (load_slot h' data (i + Z.of_nat j)) = fill_ptrs (brk h) value !! j) /\
      (forall k, k < i -> load_slot h' data k = load_slot h data k).
Proof.
  induction value as [|s rest IH]; intros data i h Hlt [b Hb].
  - exists h. simpl. rewrite app_nil_r. repeat split; eauto. intros j Hj. simpl in Hj. lia.
  - destruct (CString_run s h) as (h1 & HC & Hev1 & Hbrk1 & Hbl1).
    simpl. unfold bind at 1. rewrite HC.
    unfold bind at 1. unfold store_slot at 1, modify at 1.
    set (h2 := {| blocks := _; brk := brk h1; events := _ |}).
    assert (data <> Z.pos (brk h)) as Hne by lia.
    assert (blocks h2 !! data
            = Some {| blk_size := blk_size b;
                      blk_slots := <[i := Z.pos (brk h)]> (blk_slots b);
                      blk_str := blk_str b |}) as Hb2.
    { subst h2; simpl. rewrite lookup_alter_eq. rewrite Hbl1 by done. by rewrite Hb. }
    destruct (IH data (i + 1) h2) as (h' & HF & Hev & Hsome & Hslots & Hbelow).
    { subst h2; simpl. rewrite Hbrk1. lia. }
    { by rewrite Hb2. }
    exists h'. split; [exact HF|].
    split.
    { rewrite Hev. subst h2; simpl. rewrite Hev1, Hbrk1, <- !app_assoc. done. }
    split; [done|].
    split.
    + intros [|j] Hj.
      * change (Z.of_nat 0) with 0. rewrite Z.add_0_r, Hbelow by lia.
        unfold load_slot. rewrite Hb2. simpl. by rewrite lookup_insert_eq.
      * rewrite Nat2Z.inj_succ.
        replace (i + Z.succ (Z.of_nat j)) with (i + 1 + Z.of_nat j) by lia.
        rewrite Hslots by (simpl in Hj; lia).
        subst h2; simpl. by rewrite Hbrk1.
    + intros k Hk. rewrite Hbelow by lia.
      unfold load_slot. rewrite Hb2, Hb. simpl.
      by rewrite lookup_insert_ne by lia.
Qed.

(** [PrepareStringArray] returns a fresh block of [len(value)] bytes and
    stores one pointer of [ptr_size] bytes per string into it. *)
Lemma PrepareStringArray_run (value : list string) (h : CHeap) :
  let data := Z.pos (brk h) in
  let n := Z.of_nat (length value) in
  exists h',
    PrepareStringArray value h = Ok data h' /\
    events h' = events h ++ EvMalloc data n :: fill_events data 0 (brk h + Z.to_pos n) value /\
    is_Some (blocks h' !! data) /\
    (forall j : nat, (j < length value)%nat ->
       Some (load_slot h' data (Z.of_nat j)) = fill_ptrs (brk h + Z.to_pos n) value !! j).
Proof.
  intros data n. subst data n.
  unfold PrepareStringArray, bind, malloc, malloc_block.
  rewrite unsafe_Slice_ok by lia.
  set (h1 := {| blocks := _; brk := _; events := _ |}).
  destruct (fill_strings_run value (Z.pos (brk h)) 0 h1) as (h' & HF & Hev & Hsome & Hslots & _).
  { subst h1; simpl. lia. }
  { subst h1; simpl. rewrite lookup_insert_eq. eauto. }
  exists h'. rewrite HF. split; [done|].
  split.
  { rewrite Hev. subst h1; simpl. by rewrite <- app_assoc. }
  split; [done|].
  intros j Hj. specialize (Hslots j Hj). by rewrite Z.add_0_l in Hslots.
Qed.

(** The loop of [FreeStringArray]: one [free] per slot, in order; the
    array itself stays. *)
Lemma free_slots_run (ptrs : list addr) :
  forall (data : addr) (i : Z) (h : CHeap),
    is_Some (blocks h !! data) ->
    (forall j : nat, (j < length ptrs)%nat ->
       Some (load_slot h data (i + Z.of_nat j)) = ptrs !! j) ->
    Forall (fun p => p <> 0 /\ p <> data) ptrs ->
    exists h',
      free_slots data i (length ptrs) h = Ok tt h' /\
      events h' = events h ++ (EvFree <$> ptrs) /\
      brk h' = brk h.
Proof.
  induction ptrs as [|p ptrs IH]; intros data i h [b Hb] Hslots Hok.
  - exists h. simpl. by rewrite app_nil_r.
  - apply Forall_cons in Hok as [[Hp0 Hpd] Hok].
    assert (load_slot h data i = p) as Hp.
    { specialize (Hslots 0%nat ltac:(simpl; lia)).
      change (Z.of_nat 0) with 0 in Hslots. rewrite Z.add_0_r in Hslots.
      by injection Hslots. }
    simpl. unfold bind at 1, gets at 1. rewrite Hp.
    unfold bind at 1, free at 1.
    destruct (decide (p = 0)) as [|_]; [done|].
    unfold modify at 1.
    set (h1 := {| blocks := _; brk := brk h; events := _ |}).
    assert (blocks h1 !! data = Some b) as Hb1.
    { subst h1; simpl. by rewrite lookup_delete_ne. }
    destruct (IH data (i + 1) h1) as (h' & HF & Hev & Hbrk).
    + by rewrite Hb1.
    + intros j Hj.
      specialize (Hslots (S j) ltac:(simpl; lia)).
      rewrite Nat2Z.inj_succ in Hslots.
      replace (i + Z.succ (Z.of_nat j)) with (i + 1 + Z.of_nat j) in Hslots by lia.
      simpl in Hslots. rewrite <- Hslots.
      unfold load_slot. by rewrite Hb1, Hb.
    + done.
    + exists h'. split; [exact HF|]. split; [|by rewrite Hbrk].
      rewrite Hev. subst h1; simpl. by rewrite <- app_assoc.
Qed.

(** [FreeStringArray] after [PrepareStringArray]: the whole trace. *)
Lemma Prepare_then_Free (value : list string) (h : CHeap) :
  let data := Z.pos (brk h) in
  let n := Z.of_nat (length value) in
  let ptrs := fill_ptrs (brk h + Z.to_pos n) value in
  exists h1 h2,
    PrepareStringArray value h = Ok data h1 /\
    FreeStringArray data n h1 = Ok tt h2 /\
    events h2 = events h
                ++ EvMalloc data n :: fill_events data 0 (brk h + Z.to_pos n) value
                ++ (EvFree <$> ptrs) ++ [EvFree data].
Proof.
  intros data n ptrs.
  destruct (PrepareStringArray_run value h) as (h1 & HP & Hev1 & Hsome & Hslots).
  fold data n in HP, Hev1, Hsome, Hslots. fold ptrs in Hslots.
  assert (length ptrs = length value) as Hlen by apply fill_ptrs_length.
  destruct (free_slots_run ptrs data 0 h1) as (h2 & HF & Hev2 & _).
  - done.
  - intros j Hj. rewrite Z.add_0_l. apply Hslots. lia.
  - apply Forall_forall. intros p Hp.
    apply fill_ptrs_ge in Hp. subst data. lia.
  - eexists h1, _. split; [exact HP|].
    unfold FreeStringArray, bind.
    rewrite unsafe_Slice_ok by (subst n data; lia).
    subst n. rewrite Nat2Z.id, <- Hlen, HF.
    unfold free. destruct (decide (data = 0)) as [H0|_]; [subst data; lia|].
    split; [reflexivity|]. simpl.
    rewrite Hev2, Hev1, <- !app_assoc, Hlen. done.
Qed.

(** Every store of the loop is in the trace. *)
Lemma fill_events_store (data : addr) (value : list string) :
  forall (i : Z) (b : positive) (j : nat),
    (j < length value)%nat ->
    EvStore data (ptr_size * (i + Z.of_nat j)) ptr_size ∈ fill_events data i b value.
Proof.
  induction value as [|s rest IH]; intros i b j Hj; simpl in Hj; [lia|].
  simpl. destruct j as [|j].
  - change (Z.of_nat 0) with 0. rewrite Z.add_0_r. set_solver.
  - rewrite Nat2Z.inj_succ.
    replace (i + Z.succ (Z.of_nat j)) with (i + 1 + Z.of_nat j) by lia.
    do 2 apply list_elem_of_further. apply IH. lia.
Qed.

Section Setters.
Context {E : Type} `{!DSS_CAPI E}.

Lemma inNative_cheap {A} (c : M (Native E) A) (w : World E) :
  cheap (final_state (inNative c w)) = cheap w.
Proof. unfold inNative, zoom. by destruct (c (native w)). Qed.

Lemma inCHeap_run {A} (c : M CHeap A) (w : World E) (a : A) (h : CHeap) :
  c (cheap w) = Ok a h ->
  inCHeap c w = Ok a (MkWorld (native w) h (go_ctxs w) (go_dss w)).
Proof. intros Hc. unfold inCHeap, zoom. by rewrite Hc. Qed.

(** The body of a string-array setter does not touch the C heap. *)
Lemma setter_body_preserves_cheap (f : CHeap -> Native E -> Native E)
    (ctx : DSSContextPtrs) :
  preserves_cheap (call_reading f ;;; inNative (DSSError ctx)).
Proof.
  intros w. unfold call_reading, bind, gets.
  pose proof (inNative_cheap (call_void (f (cheap w))) w) as H1.
  destruct (inNative (call_void (f (cheap w))) w) as [u w1|msg w1]; simpl in *.
  - rewrite <- H1. apply inNative_cheap.
  - done.
Qed.

(** A deferred [FreeStringArray] runs on the heap the body was given,
    whether the body returns or panics. *)
Lemma with_defer_free {A} (body : M (World E) A) (data : addr) (n : Z) (w : World E) (h2 : CHeap) :
  preserves_cheap body ->
  FreeStringArray data n (cheap w) = Ok tt h2 ->
  cheap (final_state (with_defer (inCHeap (FreeStringArray data n)) body w)) = h2.
Proof.
  intros Hbody HF. unfold with_defer.
  specialize (Hbody w).
  destruct (body w) as [a w1|msg w1]; simpl in Hbody;
    rewrite <- Hbody in HF; by rewrite (inCHeap_run _ _ _ _ HF).
Qed.

(** The C heap trace of a string-array setter, on every exit path. *)
Lemma setter_trace (f : addr -> Z -> CHeap -> Native E -> Native E)
    (ctx : DSSContextPtrs) (value : list string) (w : World E) :
  let data := Z.pos (brk (cheap w)) in
  let n := Z.of_nat (length value) in
  let b := (brk (cheap w) + Z.to_pos n)%positive in
  let run :=
    (value_c <- inCHeap (PrepareStringArray value) ;;
     with_defer (inCHeap (FreeStringArray value_c n))
       (call_reading (f value_c (wrap32 n)) ;;; inNative (DSSError ctx))) in
  events (cheap (final_state (run w)))
    = events (cheap w)
      ++ EvMalloc data n :: fill_events data 0 b value
      ++ (EvFree <$> fill_ptrs b value) ++ [EvFree data].
Proof.
  intros data n b run.
  destruct (Prepare_then_Free value (cheap w)) as (h1 & h2 & HP & HF & Hev).
  fold data n b in HP, HF, Hev.
  subst run. unfold bind at 1.
  rewrite (inCHeap_run _ _ _ _ HP).
  rewrite (with_defer_free _ data n _ h2); [exact Hev| |exact HF].
  apply setter_body_preserves_cheap.
Qed.

Lemma overrun_not_in_bounds (evs : list Event) (ev : Event) :
  ev ∈ evs -> store_in_bounds evs ev = false -> all_stores_in_bounds evs = false.
Proof.
  intros Hin Hf. unfold all_stores_in_bounds.
  destruct (forallb (store_in_bounds evs) evs) eqn:Hall; [|done].
  rewrite forallb_forall in Hall. rewrite <- Hf. symmetry. apply Hall.
  by apply list_elem_of_In.
Qed.

(** C8, as the code runs.  Each of the four setters that take an array of
    strings ([IFuses.Set_State], [IFuses.Set_NormalState],
    [ICktElement.Set_BusNames], [IText.Commands]), called with a slice
    that is not empty, asks for the array block with [len(value)] bytes
    and then stores [len(value)] pointers of 8 bytes into it: the store
    into the last slot ends at byte [8 * len(value)], behind the end of
    the block, and it comes before anything is released.  The deferred
    [FreeStringArray] so runs on a C heap that has been written over
    outside the block, where [C.free] promises nothing.  Only on the
    empty slice is there no such store: there the one block made is
    released, once. *)
Theorem string_array_setters_overrun_before_release (h : handle) (ctx : DSSContextPtrs)
    (s : string) (rest : list string) (w : World E) :
  let value := s :: rest in
  let n := Z.of_nat (length value) in
  let data := Z.pos (brk (cheap w)) in
  let last_store := EvStore data (ptr_size * (n - 1)) ptr_size in
  let overruns (w' : World E) :=
    exists filling later,
      events (cheap w') = events (cheap w) ++ EvMalloc data n :: filling ++ later /\
      freed filling = [] /\
      last_store ∈ filling /\
      n < ptr_size * (n - 1) + ptr_size /\
      store_in_bounds (EvMalloc data n :: filling ++ later) last_store = false /\
      all_stores_in_bounds (EvMalloc data n :: filling ++ later) = false in
  let released_empty (w' : World E) :=
    events (cheap w') = events (cheap w) ++ [EvMalloc data 0; EvFree data] in
  (overruns (final_state (IFuses_Set_State h ctx value w)) /\
   overruns (final_state (IFuses_Set_NormalState h ctx value w)) /\
   overruns (final_state (ICktElement_Set_BusNames h ctx value w)) /\
   overruns (final_state (IText_Commands h ctx value w))) /\
  (released_empty (final_state (IFuses_Set_State h ctx [] w)) /\
   released_empty (final_state (IFuses_Set_NormalState h ctx [] w)) /\
   released_empty (final_state (ICktElement_Set_BusNames h ctx [] w)) /\
   released_empty (final_state (IText_Commands h ctx [] w))).
Proof.
  intros value n data last_store overruns released_empty.
  set (b := (brk (cheap w) + Z.to_pos n)%positive).
  assert (forall f : addr -> Z -> CHeap -> Native E -> Native E,
            overruns (final_state
              ((value_c <- inCHeap (PrepareStringArray value) ;;
                with_defer (inCHeap (FreeStringArray value_c (Z.of_nat (length value))))
                  (call_reading (f value_c (wrap32 (Z.of_nat (length value)))) ;;;
                   inNative (DSSError ctx))) w))) as Hall.
  { intros f.
    exists (fill_events data 0 b value), ((EvFree <$> fill_ptrs b value) ++ [EvFree data]).
    assert (last_store ∈ fill_events data 0 b value) as Hin.
    { subst last_store.
      replace (n - 1) with (0 + Z.of_nat (length value - 1)) by (subst n value; simpl; lia).
      apply fill_events_store. subst value. simpl. lia. }
    assert (n < ptr_size * (n - 1) + ptr_size) as Hlt
      by (unfold ptr_size; subst n value; simpl; lia).
    assert (store_in_bounds
              (EvMalloc data n :: fill_events data 0 b value
                 ++ (EvFree <$> fill_ptrs b value) ++ [EvFree data]) last_store = false)
      as Hout.
    { subst last_store. simpl. destruct (decide (data = data)) as [_|Hne]; [|done].
      apply bool_decide_eq_false. lia. }
    split; [apply (setter_trace f)|].
    split; [apply fill_events_freed|].
    split; [exact Hin|]. split; [exact Hlt|]. split; [exact Hout|].
    apply (overrun_not_in_bounds _ last_store); [|exact Hout].
    apply list_elem_of_further, elem_of_app. by left. }
  split; [repeat split; apply Hall|].
  assert (forall f : addr -> Z -> CHeap -> Native E -> Native E,
            released_empty (final_state
              ((value_c <- inCHeap (PrepareStringArray []) ;;
                with_defer (inCHeap (FreeStringArray value_c (Z.of_nat (length (@nil string)))))
                  (call_reading (f value_c (wrap32 (Z.of_nat (length (@nil string))))) ;;;
                   inNative (DSSError ctx))) w))) as Hempty.
  { intros f. unfold released_empty. by rewrite (setter_trace f ctx [] w). }
  repeat split; apply Hempty.
Qed.

End Setters.

(** [PrepareStringArray] on four strings: a block of 4 bytes, and pointer
    stores into it that end at bytes 8, 16, 24 and 32. *)
Example PrepareStringArray_four_strings :
  exists data h,
    PrepareStringArray ["a"; "b"; "c"; "d"] heap0 = Ok data h /\
    events h = [EvMalloc data 4;
                EvMalloc 5 2; EvStore data 0 8; EvMalloc 7 2; EvStore data 8 8;
                EvMalloc 9 2; EvStore data 16 8; EvMalloc 11 2; EvStore data 24 8] /\
    forallb (store_in_bounds (events h))
      [EvStore data 0 8; EvStore data 8 8; EvStore data 16 8; EvStore data 24 8] = false.
Proof. eexists _, _. split; [vm_compute; reflexivity|]. by split. Qed.

(** For every non-empty [value] the array block is asked for with
    [len(value)] bytes, while the store into its last slot ends at byte
    [ptr_size * len(value)]. *)
Lemma PrepareStringArray_block_too_small (value : list string) (h : CHeap) :
  value <> [] ->
  let data := Z.pos (brk h) in
  let n := Z.of_nat (length value) in
  exists h',
    PrepareStringArray value h = Ok data h' /\
    EvMalloc data n ∈ events h' /\
    EvStore data (ptr_size * (n - 1)) ptr_size ∈ events h' /\
    n < ptr_size * (n - 1) + ptr_size.
Proof.
  intros Hne data n.
  destruct (PrepareStringArray_run value h) as (h' & HP & Hev & _).
  fold data n in HP, Hev.
  assert (0 < length value)%nat as Hlen by (destruct value; [done|simpl; lia]).
  exists h'. split; [exact HP|]. rewrite Hev.
  split; [set_solver|].
  split.
  - apply elem_of_app. right. apply list_elem_of_further.
    replace (n - 1) with (0 + Z.of_nat (length value - 1)) by (subst n; lia).
    apply fill_events_store. lia.
  - unfold ptr_size. subst n. lia.
Qed.

(** C5. [PrepareStringArray] run on the one-string list ["a"]: the array
    block is requested with 1 byte ([len(value)]), not the 8 bytes one
    string pointer takes, so the store into slot 0 leaves the block. *)
Theorem PrepareStringArray_one_string :
  exists data h,
    PrepareStringArray ["a"] heap0 = Ok data h /\
    events h = [EvMalloc data 1; EvMalloc 2 2; EvStore data 0 8] /\
    allocated_size (events h) data = Some 1 /\
    store_in_bounds (events h) (EvStore data 0 8) = false /\
    all_stores_in_bounds (events h) = false.
Proof.
  eexists _, _. split; [vm_compute; reflexivity|].
  repeat split.
Qed.

(** ** Context life cycle *)

Lemma insert_last {A} (l : list A) (x y : A) : <[length l := y]> (l ++ [x]) = l ++ [y].
Proof.
  replace (length l) with (length l + 0)%nat by lia.
  by rewrite insert_app_r.
Qed.

Lemma lookup_last {A} (l : list A) (x : A) : (l ++ [x]) !! length l = Some x.
Proof. by apply list_lookup_middle. Qed.

(** After [Init(ctx)] every [ICommonData] block of a proxy is the one
    [InitCommon] makes. *)
Lemma Proxy_Init_commons (r : goptr) (blk : DSSContextPtrs) :
  forall p, Forall (fun c => c = InitCommon r blk) (commons (Proxy_Init r blk p)).
Proof.
  fix IH 1. intros [c fs]. simpl. constructor; [done|].
  induction fs as [|[name q] fs IHfs]; simpl; [constructor|].
  apply Forall_app. split; [apply IH|apply IHfs].
Qed.

(** The same for an [IDSS] object, whose own block [IDSS.Init] has set
    by hand. *)
Lemma init_fields_commons (P : ICommonData -> Prop) (r : goptr) (blk : DSSContextPtrs)
    (q : Proxy) :
  P (common q) -> P (InitCommon r blk) ->
  Forall P (commons (init_fields r blk q)).
Proof.
  intros Hq Hc. destruct q as [c fs].
  pose proof (Proxy_Init_commons r blk (MkProxy c fs)) as Hall.
  simpl in *. apply Forall_cons in Hall as [_ Hall].
  constructor; [done|].
  eapply Forall_impl; [exact Hall|]. by intros ? ->.
Qed.

Section LifeCycle.
Context {E : Type} `{!DSS_CAPI E}.

Lemma get_dss_last (n : Native E) (c : CHeap) (cs : list DSSContextPtrs)
    (ds : list Proxy) (d : Proxy) :
  get_dss (S (length ds)) (MkWorld n c cs (ds ++ [d])) = Ok d (MkWorld n c cs (ds ++ [d])).
Proof. unfold get_dss, heap_get. simpl. by rewrite lookup_last. Qed.

Lemma get_ctx_last (n : Native E) (c : CHeap) (cs : list DSSContextPtrs)
    (ds : list Proxy) (blk : DSSContextPtrs) :
  get_ctx (S (length cs)) (MkWorld n c (cs ++ [blk]) ds) = Ok blk (MkWorld n c (cs ++ [blk]) ds).
Proof. unfold get_ctx, heap_get. simpl. by rewrite lookup_last. Qed.

Lemma update_dss_last (n : Native E) (c : CHeap) (cs : list DSSContextPtrs)
    (ds : list Proxy) (d : Proxy) (f : Proxy -> Proxy) :
  update_dss (S (length ds)) f (MkWorld n c cs (ds ++ [d]))
    = Ok tt (MkWorld n c cs (ds ++ [f d])).
Proof.
  unfold update_dss, bind. rewrite get_dss_last.
  unfold modify. simpl. by rewrite insert_last.
Qed.

Lemma update_ctx_last (n : Native E) (c : CHeap) (cs : list DSSContextPtrs)
    (ds : list Proxy) (blk : DSSContextPtrs) (f : DSSContextPtrs -> DSSContextPtrs) :
  update_ctx (S (length cs)) f (MkWorld n c (cs ++ [blk]) ds)
    = Ok tt (MkWorld n c (cs ++ [f blk]) ds).
Proof.
  unfold update_ctx, bind. rewrite get_ctx_last.
  unfold modify. simpl. by rewrite insert_last.
Qed.

Lemma inNative_call {A} (f : Native E -> A * Native E) (n : Native E) (c : CHeap)
    (cs : list DSSContextPtrs) (ds : list Proxy) :
  inNative (call f) (MkWorld n c cs ds) = Ok (f n).1 (MkWorld (f n).2 c cs ds).
Proof. reflexivity. Qed.

(** [DSSContextPtrs.Init] on the newest block: start the instance, then
    ask the engine for the error cell and the GR cells of [ctxPtr]. *)
Lemma DSSContextPtrs_Init_run (n : Native E) (c : CHeap) (cs : list DSSContextPtrs)
    (ds : list Proxy) (blk : DSSContextPtrs) (ctxPtr : handle) :
  let n1 := (ctx_DSS_Start ctxPtr 0 n).2 in
  let e := ctx_Error_Get_NumberPtr ctxPtr n1 in
  let g := ctx_DSS_GetGRPointers ctxPtr e.2 in
  DSSContextPtrs_Init (S (length cs)) ctxPtr (MkWorld n c (cs ++ [blk]) ds)
    = Ok tt (MkWorld g.2 c
               (cs ++ [set_GRPointers g.1 (set_errorNumberPtr e.1 (set_ctxPtr ctxPtr blk))])
               ds).
Proof.
  intros n1 e g. unfold DSSContextPtrs_Init.
  step_with update_ctx_last.
  step_with inNative_call.
  step_with inNative_call.
  step_with update_ctx_last.
  step_with inNative_call.
  by rewrite update_ctx_last.
Qed.

(** [IDSS.Init] on the newest [IDSS] object. *)
Lemma IDSS_Init_run (n : Native E) (c : CHeap) (cs : list DSSContextPtrs)
    (ds : list Proxy) (d : Proxy) (ctxPtr : handle) :
  let prime := ctx_Get_Prime n in
  let cp := if decide (ctxPtr = 0) then prime.1 else ctxPtr in
  let n0 := if decide (ctxPtr = 0) then (ctx_DSS_Start prime.1 0 prime.2).2 else n in
  let n1 := (ctx_DSS_Start cp 0 n0).2 in
  let e := ctx_Error_Get_NumberPtr cp n1 in
  let g := ctx_DSS_GetGRPointers cp e.2 in
  let r := S (length cs) in
  let blk := set_GRPointers g.1 (set_errorNumberPtr e.1 (set_ctxPtr cp DSSContextPtrs_zero)) in
  IDSS_Init (S (length ds)) ctxPtr (MkWorld n c cs (ds ++ [d]))
    = Ok tt (MkWorld g.2 c (cs ++ [blk])
               (ds ++ [init_fields r blk (set_cd_ctxPtr cp (set_cd_ctx r d))])).
Proof.
  intros prime cp n0 n1 e g r blk. unfold IDSS_Init.
  assert ((if decide (ctxPtr = 0)
           then p <- inNative (call ctx_Get_Prime) ;;
                inNative (call (ctx_DSS_Start p 0)) ;;; ret p
           else ret ctxPtr) (MkWorld n c cs (ds ++ [d]))
          = Ok cp (MkWorld n0 c cs (ds ++ [d]))) as Hfirst.
  { subst cp n0. destruct (decide (ctxPtr = 0)); [|done].
    unfold bind. by rewrite !inNative_call. }
  step_with Hfirst.
  unfold bind at 1, new_DSSContextPtrs at 1. simpl.
  step_with update_dss_last.
  step_with update_dss_last.
  step_with get_dss_last.
  unfold bind at 1. simpl.
  rewrite DSSContextPtrs_Init_run.
  step_with get_dss_last.
  unfold bind at 1.
  change (cd_ctx (common (set_cd_ctxPtr cp (set_cd_ctx (S (length cs)) d))))
    with (S (length cs)).
  rewrite get_ctx_last.
  by rewrite update_dss_last.
Qed.

(** [NewContext] always returns: a fresh [IDSS] object initialised for the
    handle [IDSS.Init] settled on, and a fresh pointer block. *)
Lemma IDSS_NewContext_run (dss : goptr) (w : World E) :
  let new := ctx_New (native w) in
  let prime := ctx_Get_Prime new.2 in
  let cp := if decide (new.1 = 0) then prime.1 else new.1 in
  let n0 := if decide (new.1 = 0) then (ctx_DSS_Start prime.1 0 prime.2).2 else new.2 in
  let n1 := (ctx_DSS_Start cp 0 n0).2 in
  let e := ctx_Error_Get_NumberPtr cp n1 in
  let g := ctx_DSS_GetGRPointers cp e.2 in
  let r := S (length (go_ctxs w)) in
  let blk := set_GRPointers g.1 (set_errorNumberPtr e.1 (set_ctxPtr cp DSSContextPtrs_zero)) in
  IDSS_NewContext dss w
    = Ok (S (length (go_dss w)),
          if decide (new.1 = 0) then errors_New new_context_msg else None)
         (MkWorld g.2 (cheap w) (go_ctxs w ++ [blk])
            (go_dss w ++ [init_fields r blk (set_cd_ctxPtr cp (set_cd_ctx r IDSS_zero))])).
Proof.
  intros new prime cp n0 n1 e g r blk.
  unfold IDSS_NewContext.
  destruct w as [n c cs ds]. simpl in *.
  step_with inNative_call. fold new.
  unfold bind at 1, new_IDSS at 1. simpl.
  step_with IDSS_Init_run.
  fold prime cp n0 n1 e g r blk.
  by destruct (decide (new.1 = 0)).
Qed.

End LifeCycle.

Section Contexts.
Context {E : Type} `{!DSS_CAPI E}.


(** C9. [NewContext] never returns a nil pointer: the pointer it returns
    always refers to an [IDSS] object on the Go heap.  When [ctx_New]
    returned the null handle, that object comes with the allocation error
    and has been initialised by [Init(nil)]: every proxy in it carries the
    handle of the prime instance, [ctx_Get_Prime()], and its pointer block
    holds the prime's handle and the prime's error cell. *)
Theorem NewContext_never_nil (dss : goptr) (w : World E) :
  let new := ctx_New (native w) in
  let prime := ctx_Get_Prime new.2 in
  let n1 := (ctx_DSS_Start prime.1 0 (ctx_DSS_Start prime.1 0 prime.2).2).2 in
  exists d err w' obj,
    IDSS_NewContext dss w = Ok (d, err) w' /\
    d <> 0%nat /\
    go_dss w' !! pred d = Some obj /\
    (new.1 = 0 ->
     err = Some new_context_msg /\
     Forall (fun c => cd_ctxPtr c = prime.1 /\ cd_ctx c = S (length (go_ctxs w))) (commons obj) /\
     exists blk,
       go_ctxs w' !! length (go_ctxs w) = Some blk /\
       ctxPtr blk = prime.1 /\
       errorNumberPtr blk = (ctx_Error_Get_NumberPtr prime.1 n1).1).
Proof.
  intros new prime n1.
  eexists _, _, _, _. split; [apply IDSS_NewContext_run|].
  fold new prime. split; [done|]. simpl.
  split; [apply lookup_last|].
  intros Hnull. destruct (decide (new.1 = 0)); [|done].
  split; [done|]. split.
  - apply init_fields_commons; done.
  - eexists. split; [apply lookup_last|]. done.
Qed.

(** C4.  [Dispose] hands the context's own handle to the engine's
    [ctx_Dispose], for every [IDSS] object; for a context just made by
    [NewContext] that handle is the one [ctx_New] returned, so the
    instance created for it is the one released. *)
Theorem Dispose_releases_instance (dss : goptr) (w : World E) :
  (forall d obj,
     go_dss w !! d = Some obj ->
     IDSS_Dispose (S d) w
       = Ok tt (MkWorld (ctx_Dispose (cd_ctxPtr (common obj)) (native w))
                  (cheap w) (go_ctxs w) (go_dss w))) /\
  (let new := ctx_New (native w) in
   new.1 <> 0 ->
   exists d w',
     IDSS_NewContext dss w = Ok (d, None) w' /\
     IDSS_Dispose d w'
       = Ok tt (MkWorld (ctx_Dispose new.1 (native w'))
                  (cheap w') (go_ctxs w') (go_dss w'))).
Proof.
  split.
  - intros d obj Hobj.
    unfold IDSS_Dispose, bind, get_dss, heap_get. by rewrite Hobj.
  - intros new Hh. eexists _, _.
    rewrite IDSS_NewContext_run. fold new.
    destruct (decide (new.1 = 0)) as [Hnull|_]; [exfalso; by apply Hh|].
    split; [reflexivity|].
    unfold IDSS_Dispose, bind, get_dss, heap_get. simpl.
    by rewrite lookup_last.
Qed.

End Contexts.


Lemma NewContext_never_nil_witness :
  exists d w',
    IDSS_NewContext 0%nat (toy_world 0) = Ok (d, Some new_context_msg) w' /\
    d <> 0%nat /\
    (ctxPtr <$> go_ctxs w' !! 0%nat) = Some 1.
Proof.
  destruct (NewContext_never_nil 0%nat (toy_world 0))
    as (d & err & w' & obj & Hrun & Hd & _ & Hnull).
  destruct Hnull as (Herr & _ & blk & Hblk & Hptr & _); [reflexivity|].
  exists d, w'. rewrite Hrun, Herr. split; [reflexivity|]. split; [exact Hd|].
  change (length (go_ctxs (toy_world 0))) with 0%nat in Hblk.
  rewrite Hblk. simpl. by rewrite Hptr.
Defined.

Lemma Dispose_releases_instance_witness :
  exists d w',
    IDSS_NewContext 0%nat (toy_world 1) = Ok (d, None) w' /\
    eng (native w') = {| toy_created := 1; toy_capacity := 1 |} /\
    exists w'',
      IDSS_Dispose d w' = Ok tt w'' /\
      eng (native w'') = {| toy_created := 1; toy_capacity := 2 |}.
Proof.
  destruct (Dispose_releases_instance 0%nat (toy_world 1)) as [_ Hnew].
  destruct Hnew as (d & w' & Hrun & Hdisp); [vm_compute; discriminate|].
  exists d, w'. split; [exact Hrun|].
  pose proof (IDSS_NewContext_run 0%nat (toy_world 1)) as Hrun'.
  rewrite Hrun in Hrun'. injection Hrun' as _ Hw'.
  split; [by rewrite Hw'|].
  eexists. split; [exact Hdisp|]. by rewrite Hw'.
Defined.

(** * Further properties *)

(** ** The error channel, continued *)

Section ErrorChannelMore.
Context {E : Type} `{!DSS_CAPI E} `{!DSS_CAPI_more E}.

(** X2. Two contexts with different error cells do not interfere: a
    [DSSError] on the first leaves the second's error cell as it was, so
    the second context's pending fault is still reported, once, by its own
    [DSSError], and a second without fault still reports none. *)
Theorem DSSError_contexts_do_not_interfere (ctxA ctxB : DSSContextPtrs) (st : Native E) :
  errorNumberPtr ctxA <> 0 ->
  errorNumberPtr ctxB <> 0 ->
  errorNumberPtr ctxA <> errorNumberPtr ctxB ->
  exists errA stA,
    DSSError ctxA st = Ok errA stA /\
    load_i32 (mem stA) (errorNumberPtr ctxB) = load_i32 (mem st) (errorNumberPtr ctxB) /\
    (load_i32 (mem st) (errorNumberPtr ctxB) = 0 -> DSSError ctxB stA = Ok None stA) /\
    (load_i32 (mem st) (errorNumberPtr ctxB) <> 0 ->
     exists stB,
       DSSError ctxB stA
         = Ok (Errorf_DSSError (load_i32 (mem st) (errorNumberPtr ctxB))
                 (GoString (mem stA) (ctx_Error_Get_Description (ctxPtr ctxB) stA))) stB /\
       load_i32 (mem stB) (errorNumberPtr ctxB) = 0 /\
       load_i32 (mem stB) (errorNumberPtr ctxA) = 0).
Proof.
  intros HA HB Hne.
  destruct (DSSError_total ctxA st HA) as (errA & stA & HE & _ & HzA & _ & Hi32 & _).
  exists errA, stA. split; [exact HE|].
  assert (load_i32 (mem stA) (errorNumberPtr ctxB) = load_i32 (mem st) (errorNumberPtr ctxB))
    as Hsame by (apply Hi32; congruence).
  split; [exact Hsame|]. split.
  - intros H0. apply DSSError_clear; [done|]. by rewrite Hsame.
  - intros Hn. eexists. rewrite DSSError_pending by (rewrite ?Hsame; done).
    rewrite Hsame. split; [reflexivity|]. simpl.
    split; [by rewrite load_i32_store_eq|].
    rewrite load_i32_store_ne by congruence. exact HzA.
Qed.

(** X4. A scalar getter asks the engine first and checks the error channel
    second: the value is the engine's answer converted to the Go type
    ([int32] by wrap-around, [bool] by [!= 0], [string] by [C.GoString]),
    the error is nil exactly when the engine call left the error cell at
    zero, and the cell is zero afterwards.  So [IError.Number] returns no
    error whenever the engine's [Error_Get_Number] resets the number. *)
Theorem scalar_getters_value_then_error (h : handle) (ctx : DSSContextPtrs) (st : Native E) :
  errorNumberPtr ctx <> 0 ->
  let after {A} (r : A * Native E) (err : error) (st' : Native E) :=
    (err = None <-> load_i32 (mem r.2) (errorNumberPtr ctx) = 0) /\
    load_i32 (mem st') (errorNumberPtr ctx) = 0 in
  (exists err st',
     IError_Number h ctx st = Ok (wrap32 (ctx_Error_Get_Number h st).1, err) st' /\
     after (ctx_Error_Get_Number h st) err st') /\
  (exists err st',
     IStorages_Get_idx h ctx st = Ok (wrap32 (ctx_Storages_Get_idx h st).1, err) st' /\
     after (ctx_Storages_Get_idx h st) err st') /\
  (exists err st',
     IDSS_Get_AllowForms h ctx st
       = Ok (uint16_nonzero (ctx_DSS_Get_AllowForms h st).1, err) st' /\
     after (ctx_DSS_Get_AllowForms h st) err st') /\
  (exists err st',
     ILines_Get_Bus1 h ctx st
       = Ok (GoString (mem (ctx_Lines_Get_Bus1 h st).2) (ctx_Lines_Get_Bus1 h st).1, err) st' /\
     after (ctx_Lines_Get_Bus1 h st) err st').
Proof.
  intros Hp after.
  assert (forall {A} (r : A * Native E),
            exists err st', DSSError ctx r.2 = Ok err st' /\ after A r err st') as Hstep.
  { intros A r.
    destruct (DSSError_total ctx r.2 Hp) as (err & st' & HE & Hiff & Hz & _).
    exists err, st'. split; [exact HE|]. split; [exact Hiff|exact Hz]. }
  repeat split.
  - destruct (Hstep _ (ctx_Error_Get_Number h st)) as (err & st' & HE & Ha).
    exists err, st'. split; [|exact Ha].
    unfold IError_Number, bind, call. by rewrite HE.
  - destruct (Hstep _ (ctx_Storages_Get_idx h st)) as (err & st' & HE & Ha).
    exists err, st'. split; [|exact Ha].
    unfold IStorages_Get_idx, bind, call. by rewrite HE.
  - destruct (Hstep _ (ctx_DSS_Get_AllowForms h st)) as (err & st' & HE & Ha).
    exists err, st'. split; [|exact Ha].
    unfold IDSS_Get_AllowForms, bind, call. by rewrite HE.
  - destruct (Hstep _ (ctx_Lines_Get_Bus1 h st)) as (err & st' & HE & Ha).
    exists err, st'. split; [|exact Ha].
    unfold ILines_Get_Bus1, bind, call, gets. by rewrite HE.
Qed.

End ErrorChannelMore.

Lemma toy_error_ptr : errorNumberPtr (toy_ctx 1) <> 0.
Proof. vm_compute. discriminate. Qed.

Lemma DSSError_contexts_do_not_interfere_witness :
  exists errA stA,
    DSSError (toy_ctx 2) (toy_native 7 4) = Ok errA stA /\
    load_i32 (mem stA) (errorNumberPtr (toy_ctx 1)) = 7.
Proof.
  destruct (DSSError_contexts_do_not_interfere (toy_ctx 2) (toy_ctx 1) (toy_native 7 4))
    as (errA & stA & Hrun & Hsame & _).
  - vm_compute. discriminate.
  - exact toy_error_ptr.
  - vm_compute. discriminate.
  - exists errA, stA. split; [exact Hrun|]. rewrite Hsame. reflexivity.
Defined.

Lemma scalar_getters_value_then_error_witness :
  exists st', IError_Number 1 (toy_ctx 1) (toy_native 7 4) = Ok (7, None) st'.
Proof.
  destruct (scalar_getters_value_then_error 1 (toy_ctx 1) (toy_native 7 4) toy_error_ptr)
    as ((err & st' & Hrun & Hiff & _) & _).
  exists st'. rewrite Hrun. do 2 f_equal.
  apply Hiff. reflexivity.
Defined.

(** ** Copy-out, continued *)

Lemma fmap_seqZ_holds {A} (g : Z -> A) (vs : list A) :
  (forall (i : nat) (v : A), vs !! i = Some v -> g (Z.of_nat i) = v) ->
  g <$> seqZ 0 (Z.of_nat (length vs)) = vs.
Proof.
  intros Hg. apply list_eq. intros i. rewrite list_lookup_fmap.
  destruct (vs !! i) as [v|] eqn:Hv.
  - apply lookup_lt_Some in Hv as Hlt.
    rewrite lookup_seqZ_lt by lia. simpl. rewrite Z.add_0_l. by rewrite (Hg i v).
  - apply lookup_ge_None in Hv.
    rewrite lookup_seqZ_ge by lia. done.
Qed.

Lemma unsafe_Slice_negative {S} (p : addr) (len : Z) (s : S) :
  len < 0 -> unsafe_Slice p len s = Panic "unsafe.Slice: len out of range" s.
Proof. intros Hlen. unfold unsafe_Slice. by destruct (decide (len < 0)). Qed.

Lemma unsafe_Slice_nil {S} (len : Z) (s : S) :
  0 < len -> unsafe_Slice 0 len s = Panic "unsafe.Slice: ptr is nil and len is not zero" s.
Proof.
  intros Hlen. unfold unsafe_Slice.
  destruct (decide (len < 0)); [lia|].
  destruct (decide (0 = 0 /\ len <> 0)) as [_|Hno]; [done|].
  exfalso. apply Hno. split; [done|lia].
Qed.

Lemma gr_ready_double (ctx : DSSContextPtrs) : gr_ready ctx -> double_ready ctx.
Proof. unfold gr_ready, double_ready. tauto. Qed.

Section CopyOutMore.
Context {E : Type} `{!DSS_CAPI E}.

(** What the getters need of [DSSError]: it returns, and every load but
    the one of the error cell gives what it gave before. *)
Lemma DSSError_frame_facts (ctx : DSSContextPtrs) (st : Native E) :
  errorNumberPtr ctx <> 0 ->
  exists err st',
    DSSError ctx st = Ok err st' /\
    (forall a, errorNumberPtr ctx <> a -> load_i32 (mem st') a = load_i32 (mem st) a) /\
    (forall a, load_f64 (mem st') a = load_f64 (mem st) a) /\
    (forall a, load_u8 (mem st') a = load_u8 (mem st) a) /\
    (forall a, load_ptr (mem st') a = load_ptr (mem st) a).
Proof.
  intros Hp.
  destruct (decide (load_i32 (mem st) (errorNumberPtr ctx) = 0)) as [H0|Hn].
  - exists None, st. by rewrite DSSError_clear.
  - eexists _, _. rewrite DSSError_pending by done.
    split; [done|]. simpl.
    split; [intros a Ha; by rewrite load_i32_store_ne|done].
Qed.

(** X5. The array getters return exactly what the scratch buffer holds:
    when the count cell says [len vs] and the buffer holds the elements
    [vs] ([float64] 8 bytes apart, [int32] 4 bytes apart, bytes 1 apart),
    the result is [vs], beside whatever error [DSSError] reports.  For
    [GetInt32ArrayGR] the error cell must not lie inside the buffer, since
    it is reset before the copy. *)
Theorem GR_array_getters_return_buffer (ctx : DSSContextPtrs) (st : Native E) :
  gr_ready ctx ->
  exists err st',
    DSSError ctx st = Ok err st' /\
    (forall vs,
       buffer_holds load_f64 float64_size (mem st)
         (CountPtr_PDouble ctx) (DataPtr_PDouble ctx) vs ->
       GetFloat64ArrayGR ctx st = Ok (vs, err) st') /\
    (forall vs,
       buffer_holds load_i32 int32_size (mem st)
         (CountPtr_PInteger ctx) (DataPtr_PInteger ctx) vs ->
       (forall i : nat, (i < length vs)%nat ->
          load_ptr (mem st) (DataPtr_PInteger ctx) + int32_size * Z.of_nat i
            <> errorNumberPtr ctx) ->
       GetInt32ArrayGR ctx st = Ok (vs, err) st') /\
    (forall vs,
       buffer_holds load_u8 1 (mem st) (CountPtr_PByte ctx) (DataPtr_PByte ctx) vs ->
       GetUInt8ArrayGR ctx st = Ok (vs, err) st').
Proof.
  intros (Herr & HcD & HdD & HcI & HdI & HcB & HdB & HneD & HneI & HneB).
  destruct (DSSError_frame_facts ctx st Herr) as (err & st' & HE & Hi32 & Hf64 & Hu8 & Hptr).
  exists err, st'. split; [exact HE|].
  assert (forall vs : list Z, vs <> [] <-> Z.of_nat (length vs) <> 0) as Hnil.
  { intros [|v vs]; simpl; split; try done; lia. }
  split; [|split].
  - intros vs (Hcnt & Hd & Hvs).
    unfold GetFloat64ArrayGR, bind. rewrite HE.
    rewrite deref_ok by done. rewrite Hi32 by done. rewrite Hcnt.
    rewrite deref_ok by done. rewrite Hptr.
    rewrite copy_out_ok by (try lia; intros; by apply Hd, Hnil).
    unfold ret. do 2 f_equal.
    apply (fmap_seqZ_holds (fun i => load_f64 (mem st') (_ + float64_size * i))).
    intros i v Hv. rewrite Hf64. by apply Hvs.
  - intros vs (Hcnt & Hd & Hvs) Hout.
    unfold GetInt32ArrayGR, bind. rewrite HE.
    rewrite deref_ok by done. rewrite Hi32 by done. rewrite Hcnt.
    rewrite deref_ok by done. rewrite Hptr.
    rewrite copy_out_ok by (try lia; intros; by apply Hd, Hnil).
    unfold ret. do 2 f_equal.
    apply (fmap_seqZ_holds (fun i => load_i32 (mem st') (_ + int32_size * i))).
    intros i v Hv. apply lookup_lt_Some in Hv as Hlt.
    rewrite Hi32 by (apply not_eq_sym, Hout, Hlt). by apply Hvs.
  - intros vs (Hcnt & Hd & Hvs).
    unfold GetUInt8ArrayGR, bind. rewrite HE.
    rewrite deref_ok by done. rewrite Hi32 by done. rewrite Hcnt.
    rewrite deref_ok by done. rewrite Hptr.
    rewrite copy_out_ok by (try lia; intros; by apply Hd, Hnil).
    unfold ret. do 2 f_equal.
    apply (fmap_seqZ_holds (fun i => load_u8 (mem st') (_ + 1 * i))).
    intros i v Hv. rewrite Hu8. by apply Hvs.
Qed.

End CopyOutMore.

Lemma GR_array_getters_return_buffer_witness :
  exists st',
    GetInt32ArrayGR (toy_ctx 1) (toy_int_native 7)
      = Ok ([7; -1; 9], Some "(DSSError#7) Invalid index") st' /\
    GetUInt8ArrayGR (toy_ctx 1) (toy_int_native 7)
      = Ok ([1; 255], Some "(DSSError#7) Invalid index") st'.
Proof.
  destruct (GR_array_getters_return_buffer (toy_ctx 1) (toy_int_native 7) toy_gr_ready)
    as (err & st' & HE & _ & Hint & Hbyte).
  assert (err = Some "(DSSError#7) Invalid index") as ->.
  { assert (DSSError (toy_ctx 1) (toy_int_native 7)
            = Ok (Some "(DSSError#7) Invalid index") (toy_int_native 0)) as Hv
      by (vm_compute; reflexivity).
    rewrite Hv in HE. by injection HE. }
  exists st'. split.
  - apply Hint.
    + split; [reflexivity|]. split; [intros _; vm_compute; discriminate|].
      intros [|[|[|i]]] v Hv; simpl in Hv; try discriminate; injection Hv as <-; reflexivity.
    + intros [|[|[|i]]] Hi; simpl in Hi; try lia; vm_compute; discriminate.
  - apply Hbyte.
    split; [reflexivity|]. split; [intros _; vm_compute; discriminate|].
    intros [|[|i]] v Hv; simpl in Hv; try discriminate; injection Hv as <-; reflexivity.
Defined.

Section CopyOutEdges.
Context {E : Type} `{!DSS_CAPI E}.

(** X6. Negative counts.  [GetFloat64ArrayGR], [GetInt32ArrayGR] and
    [GetUInt8ArrayGR] panic in [unsafe.Slice] on any negative count, and
    [GetComplexArrayGR] on a count of -2 or less; by then [DSSError] has
    run, so a pending fault is consumed and lost with the panic.  A count
    of -1 makes [GetComplexArrayGR] return the empty sequence, since the
    halving truncates towards zero. *)
Theorem GR_array_getters_negative_count (ctx : DSSContextPtrs) (st : Native E) :
  gr_ready ctx ->
  exists err st',
    DSSError ctx st = Ok err st' /\
    load_i32 (mem st') (errorNumberPtr ctx) = 0 /\
    (load_i32 (mem st) (CountPtr_PDouble ctx) < 0 ->
     GetFloat64ArrayGR ctx st = Panic "unsafe.Slice: len out of range" st') /\
    (load_i32 (mem st) (CountPtr_PInteger ctx) < 0 ->
     GetInt32ArrayGR ctx st = Panic "unsafe.Slice: len out of range" st') /\
    (load_i32 (mem st) (CountPtr_PByte ctx) < 0 ->
     GetUInt8ArrayGR ctx st = Panic "unsafe.Slice: len out of range" st') /\
    (load_i32 (mem st) (CountPtr_PDouble ctx) <= -2 ->
     GetComplexArrayGR ctx st = Panic "unsafe.Slice: len out of range" st') /\
    (load_i32 (mem st) (CountPtr_PDouble ctx) = -1 ->
     GetComplexArrayGR ctx st = Ok ([], err) st').
Proof.
  intros (Herr & HcD & HdD & HcI & HdI & HcB & HdB & HneD & HneI & HneB).
  destruct (DSSError_frame_facts ctx st Herr) as (err & st' & HE & Hi32 & Hf64 & Hu8 & Hptr).
  exists err, st'. split; [exact HE|].
  split.
  { destruct (DSSError_total ctx st Herr) as (err2 & st2 & HE2 & _ & Hz & _).
    rewrite HE in HE2. injection HE2 as _ <-. exact Hz. }
  repeat split.
  - intros Hneg. unfold GetFloat64ArrayGR, bind. rewrite HE.
    rewrite deref_ok by done. rewrite Hi32 by done.
    rewrite deref_ok by done.
    unfold copy_out, bind. by rewrite unsafe_Slice_negative.
  - intros Hneg. unfold GetInt32ArrayGR, bind. rewrite HE.
    rewrite deref_ok by done. rewrite Hi32 by done.
    rewrite deref_ok by done.
    unfold copy_out, bind. by rewrite unsafe_Slice_negative.
  - intros Hneg. unfold GetUInt8ArrayGR, bind. rewrite HE.
    rewrite deref_ok by done. rewrite Hi32 by done.
    rewrite deref_ok by done.
    unfold copy_out, bind. by rewrite unsafe_Slice_negative.
  - intros Hneg. unfold GetComplexArrayGR, bind. rewrite HE.
    rewrite deref_ok by done. rewrite Hi32 by done.
    pose proof (load_i32_range (mem st) (CountPtr_PDouble ctx)) as Hr.
    destruct (decide (load_i32 (mem st) (CountPtr_PDouble ctx) = 1)); [lia|].
    rewrite deref_ok by done.
    assert (load_i32 (mem st) (CountPtr_PDouble ctx) ÷ 2 <= -1) as Hq.
    { change (-1) with (-2 ÷ 2). apply Z.quot_le_mono; lia. }
    assert (- 2 ^ 31 <= load_i32 (mem st) (CountPtr_PDouble ctx) ÷ 2) as Hq'.
    { transitivity (- 2 ^ 31 ÷ 2); [by vm_compute|apply Z.quot_le_mono; lia]. }
    unfold copy_out, bind.
    rewrite unsafe_Slice_negative; [done|].
    rewrite wrap32_small by lia. lia.
  - intros Hm1. unfold GetComplexArrayGR, bind. rewrite HE.
    rewrite deref_ok by done. rewrite Hi32 by done. rewrite Hm1.
    rewrite deref_ok by done.
    change (wrap32 ((if decide (-1 = 1) then 0 else -1) ÷ 2)) with 0.
    by rewrite copy_out_ok.
Qed.

(** X7. The success path of [GetComplexSimpleGR]: with no fault pending
    and a count of exactly 2, the result is the complex number made of
    buffer slots 0 and 1, the error is nil and the state is untouched. *)
Theorem GetComplexSimpleGR_two_values (ctx : DSSContextPtrs) (st : Native E) :
  double_ready ctx ->
  load_i32 (mem st) (errorNumberPtr ctx) = 0 ->
  load_i32 (mem st) (CountPtr_PDouble ctx) = 2 ->
  load_ptr (mem st) (DataPtr_PDouble ctx) <> 0 ->
  GetComplexSimpleGR ctx st
    = Ok (Complex (f64_slot (mem st) (load_ptr (mem st) (DataPtr_PDouble ctx)) 0)
                  (f64_slot (mem st) (load_ptr (mem st) (DataPtr_PDouble ctx)) 1),
          None) st.
Proof.
  intros (Herr & Hcnt & Hdata & Hne) H0 H2 Hd.
  unfold GetComplexSimpleGR, bind.
  rewrite DSSError_clear by done.
  rewrite deref_ok by done. rewrite H2.
  destruct (decide _) as [[_ Hno]|_]; [done|].
  rewrite deref_ok by done. rewrite deref_ok by done.
  unfold ret. do 2 f_equal.
  unfold load_c128, f64_slot, float64_size. f_equal; f_equal; lia.
Qed.

Lemma interleave_pairs (m : Mem) (d : addr) (k : nat) :
  interleave (complex_pair m d <$> seqZ 0 (Z.of_nat k))
    = f64_slot m d <$> seqZ 0 (2 * Z.of_nat k).
Proof.
  induction k as [|k IH]; [done|].
  rewrite seqZ_S, fmap_app. unfold interleave in *.
  rewrite flat_map_app, IH. simpl.
  replace (2 * Z.of_nat (S k)) with (2 * Z.of_nat k + 2) by lia.
  rewrite seqZ_app by lia. rewrite fmap_app. f_equal.
  rewrite !Z.add_0_l.
  unfold seqZ. simpl. do 2 f_equal; f_equal; lia.
Qed.

(** X8. The complex reading and the plain reading of one buffer agree:
    for a count [n >= 0], the real and imaginary parts of what
    [GetComplexArrayGR] returns, in order, are the first [2 * (n / 2)]
    values of what [GetFloat64ArrayGR] returns from the same state; both
    report the same error and leave the same state. *)
Theorem complex_array_is_paired_float_array (ctx : DSSContextPtrs) (st : Native E) (n : Z) :
  double_ready ctx ->
  load_i32 (mem st) (CountPtr_PDouble ctx) = n ->
  0 <= n ->
  (n <> 0 -> load_ptr (mem st) (DataPtr_PDouble ctx) <> 0) ->
  exists floats complexes err st',
    GetFloat64ArrayGR ctx st = Ok (floats, err) st' /\
    GetComplexArrayGR ctx st = Ok (complexes, err) st' /\
    interleave complexes = take (Z.to_nat (2 * (n / 2))) floats.
Proof.
  intros Hready Hn Hn0 Hd.
  assert ((if decide (n = 1) then 0 else n) ÷ 2 = n / 2) as Hk.
  { destruct (decide (n = 1)) as [->|]; [done|].
    rewrite Z.quot_div_nonneg by lia. done. }
  assert (0 <= n / 2) as Hk0 by (apply Z.div_pos; lia).
  assert (2 * (n / 2) <= n) as Hle by (apply Z.mul_div_le; lia).
  destruct (GetFloat64ArrayGR_ok ctx st Hready) as (err & st' & HE & HF).
  { by rewrite Hn. }
  { by rewrite Hn. }
  destruct (GetComplexArrayGR_ok ctx st (n / 2) Hready) as (err2 & st2 & HE2 & HC).
  { by rewrite Hn, Hk. }
  { done. }
  { intros Hnz. apply Hd. intros ->. done. }
  rewrite HE in HE2. injection HE2 as <- <-.
  eexists _, _, err, st'. split; [exact HF|]. split; [exact HC|].
  rewrite Hn. rewrite <- (Z2Nat.id (n / 2)) at 1 by done.
  rewrite interleave_pairs. rewrite Z2Nat.id by done.
  assert (seqZ 0 n = seqZ 0 (2 * (n / 2)) ++ seqZ (0 + 2 * (n / 2)) (n - 2 * (n / 2))) as ->.
  { rewrite <- seqZ_app by lia. f_equal; lia. }
  rewrite fmap_app.
  rewrite take_app_length'; [done|].
  by rewrite length_fmap, length_seqZ.
Qed.

(** X9. [GetStringArray] copies first and hands the native array back to
    the engine last: for a count [cnt[0] >= 0] it returns the strings the
    [cnt[0]] pointers of the array point to and ends in the state
    [DSS_Dispose_PPAnsiChar(&data, cnt[0])] leaves, with or without a fault
    pending.  For a negative count, or a nil array with a positive count,
    it panics before that call: the array is not handed back. *)
Theorem GetStringArray_copies_then_disposes (ctx : DSSContextPtrs) (data : addr)
    (cnt : Count4) (st : Native E) :
  errorNumberPtr ctx <> 0 ->
  exists err st1,
    DSSError ctx st = Ok err st1 /\
    (0 <= cnt0 cnt -> (cnt0 cnt <> 0 -> data <> 0) ->
     GetStringArray ctx data cnt st
       = Ok ((fun i => GoString (mem st) (load_ptr (mem st) (data + ptr_size * i)))
               <$> seqZ 0 (cnt0 cnt), err)
            (DSS_Dispose_PPAnsiChar data (cnt0 cnt) st1)) /\
    (cnt0 cnt < 0 ->
     GetStringArray ctx data cnt st = Panic "unsafe.Slice: len out of range" st1) /\
    (0 < cnt0 cnt -> data = 0 ->
     GetStringArray ctx data cnt st
       = Panic "unsafe.Slice: ptr is nil and len is not zero" st1).
Proof.
  intros Herr.
  destruct (DSSError_frame_facts ctx st Herr) as (err & st1 & HE & _).
  exists err, st1. split; [exact HE|]. repeat split.
  - intros Hn Hd.
    destruct (GetStringArray_ok ctx data cnt st Herr Hn Hd) as (err2 & st2 & HE2 & HG).
    rewrite HE in HE2. injection HE2 as <- <-. exact HG.
  - intros Hneg. unfold GetStringArray, bind. rewrite HE.
    unfold copy_out, bind. by rewrite unsafe_Slice_negative.
  - intros Hpos ->. unfold GetStringArray, bind. rewrite HE.
    unfold copy_out, bind. by rewrite unsafe_Slice_nil.
Qed.

End CopyOutEdges.

Lemma GR_array_getters_negative_count_witness :
  GetFloat64ArrayGR (toy_ctx 1) (toy_native 7 (-1))
    = Panic "unsafe.Slice: len out of range" (toy_native 0 (-1)) /\
  GetComplexArrayGR (toy_ctx 1) (toy_native 7 (-1))
    = Ok ([], Some "(DSSError#7) Invalid index") (toy_native 0 (-1)).
Proof.
  destruct (GR_array_getters_negative_count (toy_ctx 1) (toy_native 7 (-1)) toy_gr_ready)
    as (err & st' & HE & _ & HF & _ & _ & _ & HC).
  assert (DSSError (toy_ctx 1) (toy_native 7 (-1))
          = Ok (Some "(DSSError#7) Invalid index") (toy_native 0 (-1))) as Hv
    by (vm_compute; reflexivity).
  rewrite Hv in HE. injection HE as <- <-.
  split; [apply HF; vm_compute; reflexivity|apply HC; vm_compute; reflexivity].
Defined.

Lemma GetComplexSimpleGR_two_values_witness :
  GetComplexSimpleGR (toy_ctx 1) (toy_native 0 2)
    = Ok (Complex f64_1 f64_2, None) (toy_native 0 2).
Proof.
  apply (GetComplexSimpleGR_two_values (toy_ctx 1) (toy_native 0 2) toy_double_ready);
    vm_compute; first [reflexivity|discriminate].
Defined.

Lemma complex_array_is_paired_float_array_witness :
  exists floats complexes err st',
    GetFloat64ArrayGR (toy_ctx 1) (toy_native 0 3) = Ok (floats, err) st' /\
    GetComplexArrayGR (toy_ctx 1) (toy_native 0 3) = Ok (complexes, err) st' /\
    interleave complexes = take 2 floats.
Proof.
  apply (complex_array_is_paired_float_array (toy_ctx 1) (toy_native 0 3) 3 toy_double_ready);
    [vm_compute; reflexivity|lia|intros _; vm_compute; discriminate].
Defined.

Lemma GetStringArray_copies_then_disposes_witness :
  GetStringArray (toy_ctx 1) 12288 {| cnt0 := 2; cnt1 := 0; cnt2 := 0; cnt3 := 0 |}
      (toy_string_native 7)
    = Ok (["a"; "b"], Some "(DSSError#7) Invalid index") (toy_string_native 0).
Proof.
  destruct (GetStringArray_copies_then_disposes (toy_ctx 1) 12288
              {| cnt0 := 2; cnt1 := 0; cnt2 := 0; cnt3 := 0 |} (toy_string_native 7)
              toy_error_ptr) as (err & st1 & HE & HG & _).
  assert (DSSError (toy_ctx 1) (toy_string_native 7)
          = Ok (Some "(DSSError#7) Invalid index") (toy_string_native 0)) as Hv
    by (vm_compute; reflexivity).
  rewrite Hv in HE. injection HE as <- <-.
  rewrite HG; [vm_compute; reflexivity|simpl; lia|intros _; discriminate].
Defined.

(** ** Setters *)

Section SettersMore.
Context {E : Type} `{!DSS_CAPI E} `{!DSS_CAPI_more E}.


(** X11. A setter that takes one string makes one C string, and whether
    it frees it depends on where the [free] stands.  On a receiver that is
    not nil, [ILines.Set_Bus2] (free after the call), [ILines.Set_Bus1]
    (free deferred after the call) and [ILines.New] (free deferred before
    the call) all release it once on every exit path, a panic of
    [DSSError] on a nil error pointer included: the trace grows by one
    allocation of [len(value) + 1] bytes and one release of that block,
    no block is left behind, and the engine was called once, with a
    pointer to a block that holds the bytes of [value], where it reads
    [value] up to its first NUL byte.  On a nil receiver all three panic
    at [lines.ctxPtr], after the C string was made and before the engine
    is called: [Set_Bus2] and [Set_Bus1] leave the string allocated, and
    only [New], whose [defer] is in place by then, releases it. *)
Theorem string_setters_release_once (value : string) (w : World E) :
  let p := Z.pos (brk (cheap w)) in
  let made := EvMalloc p (Z.of_nat (String.length value) + 1) in
  let released (ctx : DSSContextPtrs) (f : addr -> CHeap -> Native E -> Native E)
      (w' : World E) :=
    events (cheap w') = events (cheap w) ++ [made; EvFree p] /\
    blocks (cheap w') = delete p (blocks (cheap w)) /\
    exists hp,
      heap_string hp p = value /\
      c_string_at hp p = until_nul value /\
      native w' = final_state (DSSError ctx (f p hp (native w))) in
  let leaked (o : outcome (World E) error) :=
    exists w',
      o = Panic nil_msg w' /\
      events (cheap w') = events (cheap w) ++ [made] /\
      is_Some (blocks (cheap w') !! p) /\
      native w' = native w in
  (forall h ctx,
     released ctx (ctx_Lines_Set_Bus2 h)
       (final_state (ILines_Set_Bus2 (Some (h, ctx)) value w)) /\
     released ctx (ctx_Lines_Set_Bus1 h)
       (final_state (ILines_Set_Bus1 (Some (h, ctx)) value w)) /\
     released ctx (fun p hp n => (ctx_Lines_New h p hp n).2)
       (final_state (ILines_New (Some (h, ctx)) value w))) /\
  leaked (ILines_Set_Bus2 None value w) /\
  leaked (ILines_Set_Bus1 None value w) /\
  (exists w',
     ILines_New None value w = Panic nil_msg w' /\
     events (cheap w') = events (cheap w) ++ [made; EvFree p] /\
     blocks (cheap w') = delete p (blocks (cheap w)) /\
     native w' = native w).
Proof.
  intros p made released leaked.
  set (h1 := {| blocks := <[p := {| blk_size := Z.of_nat (String.length value) + 1;
                                    blk_slots := ∅; blk_str := value |}]> (blocks (cheap w));
                brk := (brk (cheap w) + Z.to_pos (Z.of_nat (String.length value) + 1))%positive;
                events := events (cheap w) ++ [made] |}).
  assert (heap_string h1 p = value) as Hs.
  { unfold heap_string, h1. simpl. by rewrite lookup_insert_eq. }
  assert (c_string_at h1 p = until_nul value) as Hc.
  { unfold c_string_at. by rewrite Hs. }
  assert (delete p (blocks h1) = delete p (blocks (cheap w))) as Hd.
  { unfold h1. simpl. by rewrite delete_insert_eq. }
  assert (events h1 ++ [EvFree p] = events (cheap w) ++ [made; EvFree p]) as Hev.
  { unfold h1. simpl. by rewrite <- app_assoc. }
  assert (is_Some (blocks h1 !! p)) as Hblk.
  { unfold h1. simpl. rewrite lookup_insert_eq. by eexists. }
  assert (p <> 0) as Hp0 by (subst p; lia).
  split; [|split; [|split]].
  - intros h ctx. split; [|split].
    + unfold released, ILines_Set_Bus2, bind, inCHeap, zoom, CString, malloc_block,
        ctxPtr_of, ctx_of, ret, call_reading, gets, inNative, call_void, free, modify, zoom.
      simpl. fold p made h1.
      destruct (decide (p = 0)) as [|_]; [done|]. simpl.
      split; [|split].
      * destruct (DSSError ctx _); exact Hev.
      * destruct (DSSError ctx _); exact Hd.
      * exists h1. split; [exact Hs|]. split; [exact Hc|]. by destruct (DSSError ctx _).
    + unfold released, ILines_Set_Bus1, with_defer, bind, inCHeap, zoom, CString,
        malloc_block, ctxPtr_of, ctx_of, ret, call_reading, gets, inNative, call_void,
        free, modify, zoom.
      simpl. fold p made h1.
      destruct (decide (p = 0)) as [|_]; [done|].
      split; [|split].
      * destruct (DSSError ctx _); exact Hev.
      * destruct (DSSError ctx _); exact Hd.
      * exists h1. split; [exact Hs|]. split; [exact Hc|]. by destruct (DSSError ctx _).
    + unfold released, ILines_New, with_defer, bind, inCHeap, zoom, CString, malloc_block,
        ctxPtr_of, ctx_of, ret, call_reading_ret, gets, inNative, call, free, modify, zoom.
      simpl. fold p made h1.
      destruct (decide (p = 0)) as [|_]; [done|].
      split; [|split].
      * destruct (DSSError ctx _); exact Hev.
      * destruct (DSSError ctx _); exact Hd.
      * exists h1. split; [exact Hs|]. split; [exact Hc|]. by destruct (DSSError ctx _).
  - eexists. split; [reflexivity|]. simpl. fold p made h1. by destruct w.
  - eexists. split; [reflexivity|]. simpl. fold p made h1. by destruct w.
  - unfold ILines_New, with_defer, bind, inCHeap, zoom, CString, malloc_block,
      ctxPtr_of, panic, free, modify, zoom.
    simpl. fold p made h1.
    destruct (decide (p = 0)) as [|_]; [done|].
    eexists. split; [reflexivity|]. simpl. done.
Qed.

End SettersMore.


(** ** Proxies handed out by a proxy *)

Section Navigation.
Context {E : Type} `{!DSS_CAPI E} `{!DSS_CAPI_more E}.

(** X12. On a receiver that is not nil, [ICircuit.Get_Buses] and
    [ICircuit.get_Buses] return nil exactly when the engine's status is
    negative, and otherwise a pointer to the
    receiver's own [ActiveBus]; the error beside it is decided by the
    error cell alone, so a nil pointer may come with a nil error and a
    bus with an error.  By name, the C string is released once on both
    branches. *)
Theorem Get_Buses_nil_iff_negative_status (obj : goptr) (path : list string)
    (h : handle) (ctx : DSSContextPtrs) (w : World E) :
  obj <> 0%nat ->
  errorNumberPtr ctx <> 0 ->
  (forall idx : Z,
     let r := ctx_Circuit_SetActiveBusi h (wrap32 idx) (native w) in
     exists ref err st',
       ICircuit_Get_Buses obj path h ctx idx (native w) = Ok (ref, err) st' /\
       (ref = NilRef <-> wrap32 r.1 < 0) /\
       (ref <> NilRef -> ref = FieldRef obj (path ++ ["ActiveBus"])) /\
       (err = None <-> load_i32 (mem r.2) (errorNumberPtr ctx) = 0)) /\
  (forall name : string,
     let p := Z.pos (brk (cheap w)) in
     exists hp ref err w',
       heap_string hp p = name /\
       let r := ctx_Circuit_SetActiveBus h p hp (native w) in
       ICircuit_get_Buses obj path h ctx name w = Ok (ref, err) w' /\
       (ref = NilRef <-> wrap32 r.1 < 0) /\
       (ref <> NilRef -> ref = FieldRef obj (path ++ ["ActiveBus"])) /\
       (err = None <-> load_i32 (mem r.2) (errorNumberPtr ctx) = 0) /\
       events (cheap w')
         = events (cheap w) ++ [EvMalloc p (Z.of_nat (String.length name) + 1); EvFree p]).
Proof.
  intros _ Hp. split.
  - intros idx r.
    destruct (DSSError_total ctx r.2 Hp) as (err & st' & HE & Hiff & _).
    unfold ICircuit_Get_Buses, bind, call. fold r.
    destruct (decide (wrap32 r.1 < 0)) as [Hneg|Hpos]; rewrite HE; unfold ret.
    + exists NilRef, err, st'. repeat split; first [done|exact Hev|apply Hiff].
    + exists (FieldRef obj (path ++ ["ActiveBus"])), err, st'.
      unfold field_of. repeat split; first [done|exact Hev|apply Hiff].
  - intros name p.
    set (h1 := {| blocks := <[p := {| blk_size := Z.of_nat (String.length name) + 1;
                                      blk_slots := ∅; blk_str := name |}]> (blocks (cheap w));
                  brk := (brk (cheap w) + Z.to_pos (Z.of_nat (String.length name) + 1))%positive;
                  events := events (cheap w)
                              ++ [EvMalloc p (Z.of_nat (String.length name) + 1)] |}).
    assert (heap_string h1 p = name) as Hs.
    { unfold heap_string, h1. simpl. by rewrite lookup_insert_eq. }
    assert (events h1 ++ [EvFree p]
            = events (cheap w) ++ [EvMalloc p (Z.of_nat (String.length name) + 1); EvFree p])
      as Hev.
    { unfold h1. simpl. by rewrite <- app_assoc. }
    assert (p <> 0) as Hp0 by (subst p; lia).
    set (r := ctx_Circuit_SetActiveBus h p h1 (native w)).
    destruct (DSSError_total ctx r.2 Hp) as (err & st' & HE & Hiff & _).
    exists h1.
    unfold ICircuit_get_Buses, bind, inCHeap, zoom, CString, malloc_block,
      call_reading_ret, gets, inNative, call, free, modify, zoom. simpl.
    fold p h1 r.
    destruct (decide (wrap32 r.1 < 0)) as [Hneg|Hpos];
      (destruct (decide (p = 0)) as [|_]; [done|]); simpl; rewrite HE; unfold ret.
    + eexists NilRef, err, _. repeat split; first [done|exact Hev|apply Hiff].
    + eexists (FieldRef obj (path ++ ["ActiveBus"])), err, _.
      unfold field_of. repeat split; first [done|exact Hev|apply Hiff].
Qed.

(** X13. The proxies that activate an element and hand out a sub-proxy
    without asking the engine for a status ([ICircuit.get_CktElementsi],
    [ICircuit.get_CktElements], [IDSS.NewCircuit]), called on a receiver
    that is not nil, never return nil: the
    pointer is the receiver's own field, also when the error beside it is
    not nil.  The error is nil exactly when the engine call left the error
    cell at zero, and a name passed as a C string is released once. *)
Theorem activating_getters_never_nil (obj : goptr) (path : list string)
    (h : handle) (ctx : DSSContextPtrs) (w : World E) :
  obj <> 0%nat ->
  errorNumberPtr ctx <> 0 ->
  let p := Z.pos (brk (cheap w)) in
  let by_name (run : string -> M (World E) (goref * error))
      (f : addr -> CHeap -> Native E -> Native E) (field : string) :=
    forall name : string,
      exists hp err w',
        heap_string hp p = name /\
        run name w = Ok (FieldRef obj (path ++ [field]), err) w' /\
        (err = None <-> load_i32 (mem (f p hp (native w))) (errorNumberPtr ctx) = 0) /\
        events (cheap w')
          = events (cheap w) ++ [EvMalloc p (Z.of_nat (String.length name) + 1); EvFree p] in
  (forall idx : Z,
     exists err st',
       ICircuit_get_CktElementsi obj path h ctx idx (native w)
         = Ok (FieldRef obj (path ++ ["ActiveCktElement"]), err) st' /\
       (err = None <->
        load_i32 (mem (ctx_Circuit_SetCktElementIndex h (wrap32 idx) (native w)))
                 (errorNumberPtr ctx) = 0)) /\
  by_name (ICircuit_get_CktElements obj path h ctx)
          (ctx_Circuit_SetCktElementName h) "ActiveCktElement" /\
  by_name (IDSS_NewCircuit obj path h ctx) (ctx_DSS_NewCircuit h) "ActiveCircuit".
Proof.
  intros _ Hp p by_name.
  assert (forall (f : addr -> CHeap -> Native E -> Native E) (field : string),
            by_name (fun name =>
                       name_c <- inCHeap (CString name) ;;
                       call_reading (f name_c) ;;;
                       inCHeap (free name_c) ;;;
                       err <- inNative (DSSError ctx) ;;
                       ret (field_of obj path field, err))%go f field) as Hall.
  { intros f field name.
    set (h1 := {| blocks := <[p := {| blk_size := Z.of_nat (String.length name) + 1;
                                      blk_slots := ∅; blk_str := name |}]> (blocks (cheap w));
                  brk := (brk (cheap w) + Z.to_pos (Z.of_nat (String.length name) + 1))%positive;
                  events := events (cheap w)
                              ++ [EvMalloc p (Z.of_nat (String.length name) + 1)] |}).
    assert (heap_string h1 p = name) as Hs.
    { unfold heap_string, h1. simpl. by rewrite lookup_insert_eq. }
    assert (events h1 ++ [EvFree p]
            = events (cheap w) ++ [EvMalloc p (Z.of_nat (String.length name) + 1); EvFree p])
      as Hev.
    { unfold h1. simpl. by rewrite <- app_assoc. }
    assert (p <> 0) as Hp0 by (subst p; lia).
    destruct (DSSError_total ctx (f p h1 (native w)) Hp) as (err & st' & HE & Hiff & _).
    exists h1, err.
    unfold bind, inCHeap, zoom, CString, malloc_block, call_reading, gets, inNative,
      call_void, free, modify, zoom. simpl. fold p h1.
    destruct (decide (p = 0)) as [|_]; [done|]. simpl. rewrite HE. unfold ret, field_of.
    eexists. repeat split; first [done|exact Hev|apply Hiff]. }
  split; [|split; apply Hall].
  intros idx.
  destruct (DSSError_total ctx (ctx_Circuit_SetCktElementIndex h (wrap32 idx) (native w)) Hp)
    as (err & st' & HE & Hiff & _).
  exists err, st'. split; [|exact Hiff].
  unfold ICircuit_get_CktElementsi, bind, call_void. by rewrite HE.
Qed.

End Navigation.

Lemma Get_Buses_nil_iff_negative_status_witness :
  exists st',
    ICircuit_Get_Buses 1%nat ["ActiveCircuit"] 1 (toy_ctx 1) 5 (native (toy_world 1))
      = Ok (NilRef, None) st'.
Proof.
  destruct (Get_Buses_nil_iff_negative_status 1%nat ["ActiveCircuit"] 1 (toy_ctx 1)
              (toy_world 1) (Nat.neq_succ_0 0) toy_error_ptr) as [Hidx _].
  destruct (Hidx 5) as (ref & err & st' & Hrun & Hnil & _ & Herr).
  exists st'. rewrite Hrun.
  assert (ref = NilRef) as -> by (apply Hnil; vm_compute; reflexivity).
  assert (err = None) as -> by (apply Herr; vm_compute; reflexivity).
  reflexivity.
Defined.

Lemma activating_getters_never_nil_witness :
  exists err w',
    IDSS_NewCircuit 1%nat [] 1 (toy_ctx 1) "ieee13" (toy_world 1)
      = Ok (FieldRef 1%nat ["ActiveCircuit"], err) w' /\
    events (cheap w') = [EvMalloc 1 7; EvFree 1].
Proof.
  destruct (activating_getters_never_nil 1%nat [] 1 (toy_ctx 1) (toy_world 1)
              (Nat.neq_succ_0 0) toy_error_ptr) as (_ & _ & Hnew).
  destruct (Hnew "ieee13") as (hp & err & w' & _ & Hrun & _ & Hev).
  exists err, w'. split; [exact Hrun|exact Hev].
Defined.

(** ** Whole proxy methods *)

Section ProxyMethods.
Context {E : Type} `{!DSS_CAPI E} `{!DSS_CAPI_more E}.

(** X14. An array getter of a proxy reads what its own engine call left:
    [IStorages.RegisterValues] returns the values the scratch buffer holds
    after [ctx_Storages_Get_RegisterValues_GR], and the error is nil
    exactly when that call left the error cell at zero;
    [IFuses.Get_State] returns the strings of the array the engine handed
    over and gives that same array, with its count, back to
    [DSS_Dispose_PPAnsiChar]. *)
Theorem proxy_array_getters_read_after_the_call (h : handle) (ctx : DSSContextPtrs)
    (st : Native E) :
  double_ready ctx ->
  (forall vs,
     let st1 := ctx_Storages_Get_RegisterValues_GR h st in
     buffer_holds load_f64 float64_size (mem st1)
       (CountPtr_PDouble ctx) (DataPtr_PDouble ctx) vs ->
     exists err st',
       IStorages_RegisterValues h ctx st = Ok (vs, err) st' /\
       (err = None <-> load_i32 (mem st1) (errorNumberPtr ctx) = 0) /\
       eng st' = eng st1) /\
  (let r := ctx_Fuses_Get_State h st in
   0 <= cnt0 r.1.2 ->
   (cnt0 r.1.2 <> 0 -> r.1.1 <> 0) ->
   exists err st',
     DSSError ctx r.2 = Ok err st' /\
     IFuses_Get_State h ctx st
       = Ok ((fun i => GoString (mem r.2) (load_ptr (mem r.2) (r.1.1 + ptr_size * i)))
               <$> seqZ 0 (cnt0 r.1.2), err)
            (DSS_Dispose_PPAnsiChar r.1.1 (cnt0 r.1.2) st')).
Proof.
  intros Hready. split.
  - intros vs st1 (Hcnt & Hd & Hvs).
    assert (vs <> [] <-> Z.of_nat (length vs) <> 0) as Hnil.
    { destruct vs; simpl; split; try done; lia. }
    destruct (GetFloat64ArrayGR_ok ctx st1 Hready) as (err & st' & HE & HG).
    { rewrite Hcnt. lia. }
    { rewrite Hcnt. intros Hne. by apply Hd, Hnil. }
    destruct Hready as (Herr & _).
    destruct (DSSError_total ctx st1 Herr) as (err2 & st2 & HE2 & Hiff & _ & Heng & _).
    rewrite HE in HE2. injection HE2 as <- <-.
    exists err, st'. split; [|split; [exact Hiff|exact Heng]].
    unfold IStorages_RegisterValues, bind, call_void. fold st1. rewrite HG.
    do 2 f_equal. rewrite Hcnt.
    apply (fmap_seqZ_holds (f64_slot (mem st1) _)).
    intros i v Hv. unfold f64_slot. by apply Hvs.
  - intros r Hn Hd.
    destruct Hready as (Herr & _).
    destruct (GetStringArray_ok ctx r.1.1 r.1.2 r.2 Herr Hn Hd) as (err & st' & HE & HG).
    exists err, st'. split; [exact HE|].
    unfold IFuses_Get_State, bind, call. fold r. exact HG.
Qed.

(** X15. On a pointer block that [Init] never filled (a nil error
    pointer) nothing returns: [DSSError] and every copy-out helper panic
    with the nil dereference before reading anything, so the string array
    passed to [GetStringArray] is not handed back to the engine; a proxy
    method panics too, but only after its engine call has been made. *)
Theorem uninitialised_block_panics (h : handle) (ctx : DSSContextPtrs) (st : Native E) :
  errorNumberPtr ctx = 0 ->
  DSSError ctx st = Panic nil_msg st /\
  GetFloat64ArrayGR ctx st = Panic nil_msg st /\
  GetComplexArrayGR ctx st = Panic nil_msg st /\
  GetComplexSimpleGR ctx st = Panic nil_msg st /\
  GetInt32ArrayGR ctx st = Panic nil_msg st /\
  GetUInt8ArrayGR ctx st = Panic nil_msg st /\
  (forall data cnt, GetStringArray ctx data cnt st = Panic nil_msg st) /\
  IStorages_Get_idx h ctx st = Panic nil_msg (ctx_Storages_Get_idx h st).2 /\
  IStorages_RegisterValues h ctx st
    = Panic nil_msg (ctx_Storages_Get_RegisterValues_GR h st) /\
  (forall value, IDSS_Set_AllowForms h ctx value st
                 = Panic nil_msg (ctx_DSS_Set_AllowForms h (ToUint16 value) st)).
Proof.
  intros H0.
  assert (forall s : Native E, DSSError ctx s = Panic nil_msg s) as HE.
  { intros s. unfold DSSError, bind, deref, nil_check. rewrite H0. done. }
  repeat split; intros;
    unfold IStorages_Get_idx, IStorages_RegisterValues, IDSS_Set_AllowForms,
      GetFloat64ArrayGR, GetComplexArrayGR, GetComplexSimpleGR, GetInt32ArrayGR,
      GetUInt8ArrayGR, GetStringArray, bind, call, call_void; by rewrite HE.
Qed.

(** X16. A [bool] survives the round trip through the engine's
    [uint16_t]: [ToUint16] followed by the getter's [!= 0] is the
    identity, so when [Set_AllowForms v] raises no fault and the engine
    answers with the value it was given, [Get_AllowForms] returns [v].
    The other way round is lossy: every nonzero engine value reads as
    [true], and [ToUint16] gives back 1. *)
Theorem AllowForms_round_trip (h : handle) (ctx : DSSContextPtrs) (st : Native E)
    (v : bool) :
  errorNumberPtr ctx <> 0 ->
  let st1 := ctx_DSS_Set_AllowForms h (ToUint16 v) st in
  load_i32 (mem st1) (errorNumberPtr ctx) = 0 ->
  (ctx_DSS_Get_AllowForms h st1).1 = ToUint16 v ->
  IDSS_Set_AllowForms h ctx v st = Ok None st1 /\
  (exists err st',
     (IDSS_Set_AllowForms h ctx v ;;; IDSS_Get_AllowForms h ctx)%go st = Ok (v, err) st') /\
  (forall x : Z, ToUint16 (uint16_nonzero x) = x <-> x = 0 \/ x = 1).
Proof.
  intros Hp st1 Hz Hget.
  assert (IDSS_Set_AllowForms h ctx v st = Ok None st1) as Hset.
  { unfold IDSS_Set_AllowForms, bind, call_void. fold st1. by apply DSSError_clear. }
  split; [exact Hset|]. split.
  - destruct (DSSError_total ctx (ctx_DSS_Get_AllowForms h st1).2 Hp)
      as (err & st' & HE & _).
    exists err, st'. unfold bind at 1. rewrite Hset.
    unfold IDSS_Get_AllowForms, bind, call. rewrite HE, Hget.
    unfold ret. by destruct v.
  - intros x. unfold ToUint16, uint16_nonzero.
    destruct (x mod 2 ^ 16 =? 0) eqn:Hx; simpl.
    + apply Z.eqb_eq in Hx. split; [intros <-; by left|].
      intros [->| ->]; [done|]. by vm_compute in Hx.
    + apply Z.eqb_neq in Hx. split; [intros <-; by right|].
      intros [->| ->]; [|done]. by vm_compute in Hx.
Qed.

End ProxyMethods.

Lemma proxy_array_getters_read_after_the_call_witness :
  exists st',
    IStorages_RegisterValues 1 (toy_ctx 1) (toy_native 0 2) = Ok ([f64_1; f64_2], None) st'.
Proof.
  destruct (proxy_array_getters_read_after_the_call 1 (toy_ctx 1) (toy_native 0 2)
              toy_double_ready) as [Hreg _].
  destruct (Hreg [f64_1; f64_2]) as (err & st' & Hrun & Hiff & _).
  - split; [reflexivity|]. split; [intros _; vm_compute; discriminate|].
    intros [|[|i]] v Hv; simpl in Hv; try discriminate; injection Hv as <-; reflexivity.
  - exists st'. rewrite Hrun. do 2 f_equal. apply Hiff. reflexivity.
Defined.

Lemma uninitialised_block_panics_witness :
  GetFloat64ArrayGR DSSContextPtrs_zero (toy_native 7 2) = Panic nil_msg (toy_native 7 2) /\
  IStorages_Get_idx 0 DSSContextPtrs_zero (toy_native 7 2) = Panic nil_msg (toy_native 7 2).
Proof.
  destruct (uninitialised_block_panics 0 DSSContextPtrs_zero (toy_native 7 2) eq_refl)
    as (_ & HF & _ & _ & _ & _ & _ & HI & _).
  split; [exact HF|exact HI].
Defined.

Lemma AllowForms_round_trip_witness :
  exists err st',
    (IDSS_Set_AllowForms 1 (toy_ctx 1) true ;;; IDSS_Get_AllowForms 1 (toy_ctx 1))%go
      (toy_native 0 0) = Ok (true, err) st'.
Proof.
  destruct (AllowForms_round_trip 1 (toy_ctx 1) (toy_native 0 0) true toy_error_ptr)
    as (_ & Hrun & _); [reflexivity|reflexivity|exact Hrun].
Defined.
